(** * granola-lite: the RAG question-answering pipeline and its conversation memory

    A shallow embedding of
      - [backend/memory/manager.py]   (ConversationManager),
      - [backend/services/llm_service.py] (LLMService.get_embedding, generate_response),
      - [backend/rag_service.py]      (RAGService),
      - [backend/main.py]             (the note handlers that drive the vector index),
      - [backend/database.py]         (the two tables),
    followed by the properties of the specification that concern them.

    Python lists are [list]s, the per-user registry (a dict keyed by user id) is a
    [gmap string _], integers are [Z].  Calls to the outside world (embedding
    model, chat model, wall clock) are answered by oracles and recorded in a trace. *)

From Stdlib Require Import ZArith QArith Qabs Qround Lqa String Ascii DecimalString Lia.
From stdpp Require Import gmap strings list fin_maps sorting.

Local Open Scope string_scope.
Local Open Scope list_scope.
Local Open Scope Z_scope.

(** ** Python builtins used by the sources *)

(** [l[start:]] for a Python list: a negative [start] counts from the end and is
    clamped at the front of the list, a positive one is clamped at its end. *)
Definition py_slice_from {A} (start : Z) (l : list A) : list A :=
  let n := Z.of_nat (length l) in
  let s := if start <? 0 then Z.max 0 (n + start) else Z.min start n in
  drop (Z.to_nat s) l.

(** The last [n] elements of a list (all of them when it is shorter). *)
Definition last_n {A} (n : nat) (l : list A) : list A := drop (length l - n) l.

(** [str(i)] / [f"{i}"] for a Python int. *)
Definition str_int (i : Z) : string := NilZero.string_of_int (Z.to_int i).

(** The line feed of the ["\n"] escapes. *)
Definition nl : string := String (ascii_of_nat 10) EmptyString.

(** [sep.join(parts)]. *)
Fixpoint join (sep : string) (parts : list string) : string :=
  match parts with
  | [] => ""
  | [p] => p
  | p :: ps => p +:+ sep +:+ join sep ps
  end.

(** Truthiness of a [str]: [if answer:] holds for every non-empty string. *)
Definition str_truthy (s : string) : bool :=
  match s with EmptyString => false | String _ _ => true end.

(** What a call that may raise evaluates to. *)
Inductive Outcome (A : Type) : Type :=
  | Ok (a : A)
  | Raise (exn : string).
Arguments Ok {A} a.
Arguments Raise {A} exn.

(** ** LangChain objects used by the manager

    [langchain.schema]: the two message classes the manager builds; both carry a
    [content] attribute. *)
Inductive BaseMessage : Type :=
  | HumanMessage (content : string)
  | AIMessage (content : string).

Definition content (m : BaseMessage) : string :=
  match m with HumanMessage c => c | AIMessage c => c end.

Definition is_human (m : BaseMessage) : bool :=
  match m with HumanMessage _ => true | AIMessage _ => false end.

(** [ConversationBufferWindowMemory(k, return_messages=True)].  Its
    [chat_memory.messages] holds every message ever saved; the window [k] is
    applied only by the [buffer] view ([messages[-k*2:]], empty when [k <= 0]). *)
Record ConversationBufferWindowMemory : Type := {
  k : Z;
  chat_memory_messages : list BaseMessage
}.

(** [save_context({"input": i}, {"output": o})]: one human and one AI message
    are appended to the chat history. *)
Definition save_context (input output : string)
    (m : ConversationBufferWindowMemory) : ConversationBufferWindowMemory :=
  {| k := k m;
     chat_memory_messages :=
       chat_memory_messages m ++ [HumanMessage input; AIMessage output] |}.

(** The windowed view [buffer] (never read by the manager). *)
Definition buffer (m : ConversationBufferWindowMemory) : list BaseMessage :=
  if 0 <? k m then py_slice_from (- (k m * 2)) (chat_memory_messages m) else [].

(** [ConversationSummaryMemory(llm, max_token_limit, return_messages=True)]:
    the manager only creates it; nothing is ever saved into it. *)
Record ConversationSummaryMemory : Type := {
  max_token_limit : Z;
  summary_messages : list BaseMessage
}.

(** ** memory/manager.py *)

(** One entry of [user_memory["conversations"]]. *)
Record Conversation : Type := {
  id : string;
  timestamp : string;
  message : string;
  is_user : bool
}.

(** The dict built by [get_user_memory] for a user. *)
Record UserMemory : Type := {
  summary_memory : ConversationSummaryMemory;
  buffer_memory : ConversationBufferWindowMemory;
  conversations : list Conversation;
  context : gmap string string
}.

(** The state of a [ConversationManager]: its [user_memories] registry (the
    [max_token_limit] of the constructor is its default, 2000). *)
Abbreviation ConversationManager := (gmap string UserMemory).

Definition new_user_memory : UserMemory :=
  {| summary_memory := {| max_token_limit := 2000; summary_messages := [] |};
     buffer_memory := {| k := 10; chat_memory_messages := [] |};
     conversations := [];
     context := ∅ |}.

(** [get_user_memory]: get or create; the registry gains the user when absent. *)
Definition get_user_memory (user_id : string) (mgr : ConversationManager)
    : UserMemory * ConversationManager :=
  match mgr !! user_id with
  | Some um => (um, mgr)
  | None => (new_user_memory, <[user_id := new_user_memory]> mgr)
  end.

(** [add_message].  [now] is the value of [datetime.utcnow().isoformat()] read
    by the call. *)
Definition add_message (now : string) (user_id message : string) (is_user : bool)
    (conversation_id : string) (mgr : ConversationManager) : ConversationManager :=
  let '(user_memory, mgr) := get_user_memory user_id mgr in
  let buffer_memory' :=
    save_context (if is_user then message else "")
                 (if negb is_user then message else "")
                 (buffer_memory user_memory) in
  let conversation :=
    {| id := conversation_id; timestamp := now;
       message := message; is_user := is_user |} in
  let conversations' := conversations user_memory ++ [conversation] in
  let conversations'' :=
    if 100 <? Z.of_nat (length conversations')
    then py_slice_from (-100) conversations'
    else conversations' in
  <[user_id := {| summary_memory := summary_memory user_memory;
                  buffer_memory := buffer_memory';
                  conversations := conversations'';
                  context := context user_memory |}]> mgr.

(** [get_conversation_history]. *)
Definition get_conversation_history (user_id conversation_id : string) (limit : Z)
    (mgr : ConversationManager) : list Conversation * ConversationManager :=
  let '(user_memory, mgr) := get_user_memory user_id mgr in
  (py_slice_from (- limit)
     (filter (fun conv => id conv = conversation_id) (conversations user_memory)),
   mgr).

(** [get_recent_context]: the chat history of the user's buffer memory itself. *)
Definition get_recent_context (user_id : string) (mgr : ConversationManager)
    : list BaseMessage * ConversationManager :=
  let '(user_memory, mgr) := get_user_memory user_id mgr in
  (chat_memory_messages (buffer_memory user_memory), mgr).

(** [clear_user_memory]. *)
Definition clear_user_memory (user_id : string) (mgr : ConversationManager)
    : ConversationManager :=
  delete user_id mgr.

(** One [add_message] call together with the clock value it reads. *)
Record Turn : Type := {
  turn_user : string;
  turn_text : string;
  turn_is_user : bool;
  turn_conversation : string;
  turn_now : string
}.

Definition record_turn (t : Turn) (mgr : ConversationManager) : ConversationManager :=
  add_message (turn_now t) (turn_user t) (turn_text t) (turn_is_user t)
              (turn_conversation t) mgr.

(** A sequence of [add_message] calls, the head of the list first. *)
Definition record_all (ts : list Turn) (mgr : ConversationManager)
    : ConversationManager :=
  foldl (fun m t => record_turn t m) mgr ts.

Definition conversation_of (t : Turn) : Conversation :=
  {| id := turn_conversation t; timestamp := turn_now t;
     message := turn_text t; is_user := turn_is_user t |}.

(** The two messages a turn puts into the chat history. *)
Definition messages_of (t : Turn) : list BaseMessage :=
  [HumanMessage (if turn_is_user t then turn_text t else "");
   AIMessage (if negb (turn_is_user t) then turn_text t else "")].

(** What the two read accessors show for a user, the registry left aside. *)
Definition recent_window (user_id : string) (mgr : ConversationManager)
    : list BaseMessage :=
  fst (get_recent_context user_id mgr).

Definition full_log (user_id : string) (mgr : ConversationManager)
    : list Conversation :=
  conversations (fst (get_user_memory user_id mgr)).

(** [max(...)] over a non-empty run of strings: the first greatest one, by
    the order of the characters' codes. *)
Definition py_max_string (first : string) (rest : list string) : string :=
  foldl (fun best s => if String.ltb best s then s else best) first rest.

(** The dict returned by [get_conversation_stats]. *)
Record ConversationStats : Type := {
  total_messages : Z;
  stats_conversations : Z;
  last_activity : option string
}.

(** [get_conversation_stats]. *)
Definition get_conversation_stats (user_id : string) (mgr : ConversationManager)
    : ConversationStats * ConversationManager :=
  let '(user_memory, mgr) := get_user_memory user_id mgr in
  match conversations user_memory with
  | [] =>
      ({| total_messages := 0; stats_conversations := 0; last_activity := None |},
       mgr)
  | first :: rest =>
      let conversation_ids : gset string :=
        list_to_set (map id (first :: rest)) in
      let last := py_max_string (timestamp first) (map timestamp rest) in
      ({| total_messages := Z.of_nat (length (first :: rest));
          stats_conversations := Z.of_nat (size conversation_ids);
          last_activity := Some last |},
       mgr)
  end.

(** [update_user_context]: [dict.update], the new keys win. *)
Definition update_user_context (user_id : string) (new_context : gmap string string)
    (mgr : ConversationManager) : ConversationManager :=
  let '(user_memory, mgr) := get_user_memory user_id mgr in
  <[user_id := {| summary_memory := summary_memory user_memory;
                  buffer_memory := buffer_memory user_memory;
                  conversations := conversations user_memory;
                  context := new_context ∪ context user_memory |}]> mgr.

(** [get_user_context]. *)
Definition get_user_context (user_id : string) (mgr : ConversationManager)
    : gmap string string * ConversationManager :=
  let '(user_memory, mgr) := get_user_memory user_id mgr in
  (context user_memory, mgr).

(** The dict returned by [export_user_data]. *)
Record UserExport : Type := {
  export_user_id : string;
  export_conversations : list Conversation;
  export_context : gmap string string;
  export_stats : ConversationStats;
  exported_at : string
}.

(** [export_user_data]; [now] is the clock value it reads. *)
Definition export_user_data (now : string) (user_id : string)
    (mgr : ConversationManager) : UserExport * ConversationManager :=
  let '(user_memory, mgr) := get_user_memory user_id mgr in
  let '(stats, mgr) := get_conversation_stats user_id mgr in
  ({| export_user_id := user_id;
      export_conversations := conversations user_memory;
      export_context := context user_memory;
      export_stats := stats;
      exported_at := now |},
   mgr).

(** ** The world outside the Python process *)

(** One element of the [messages] list passed to the chat model: a dict with
    the keys ["role"] and ["content"]. *)
Record ChatMessage : Type := {
  role : string;
  chat_content : string
}.

(** The calls that leave the process. *)
Inductive Event : Type :=
  | EmbedQuery (text : string)
  | OllamaChat (messages : list ChatMessage)
  | UtcNow.

(** The parts of the runtime the sources rely on without defining them:
    Python and PostgreSQL floats with the comparison of [ORDER BY], pgvector's
    cosine distance [<=>], float subtraction from one, the [.2f] format, and
    the answers of the embedding model, the chat model and the clock.  An
    oracle is asked with the number of calls made before it, so that the same
    request may be answered differently at different times. *)
Class Runtime : Type := {
  score : Type;
  score_le : score -> score -> bool;
  cosine_distance : list score -> list score -> score;
  one_minus : score -> score;
  format_2f : score -> string;
  embed_query : nat -> string -> Outcome (list score);
  ollama_chat : nat -> list ChatMessage -> Outcome string;
  utcnow_isoformat : nat -> string
}.

(** What the proofs about ranking need of the float operations: [ORDER BY]
    compares by a total preorder, and [1 - x] reverses it (true of IEEE
    doubles as long as no distance is NaN). *)
Class RuntimeLaws (R : Runtime) : Prop := {
  score_le_total : forall a b, score_le a b = true \/ score_le b a = true;
  score_le_trans : forall a b c,
    score_le a b = true -> score_le b c = true -> score_le a c = true;
  one_minus_antitone : forall a b,
    score_le a b = true -> score_le (one_minus b) (one_minus a) = true
}.

Section Model.
Context {R : Runtime}.

(** ** database.py *)

(** A row of [notes]. *)
Record Note : Type := {
  note_id : Z;
  title : string;
  note_content : string;
  created_at : string;
  updated_at : string
}.

(** A row of [note_embeddings]. *)
Record NoteEmbedding : Type := {
  embedding_id : Z;
  embedding_note_id : Z;
  embedding : list score;
  embedding_created_at : string
}.

(** The two tables in storage order, and the last value handed out by each
    primary-key sequence. *)
Record Tables : Type := {
  notes : list Note;
  note_embeddings : list NoteEmbedding;
  notes_seq : Z;
  note_embeddings_seq : Z
}.

Definition empty_tables : Tables :=
  {| notes := []; note_embeddings := []; notes_seq := 0; note_embeddings_seq := 0 |}.

(** A SQLAlchemy [Session] ([autocommit=False]): statements act on the open
    transaction, [commit] makes it durable, [close] drops what was not
    committed. *)
Record Session : Type := {
  committed : Tables;
  pending : Tables
}.

Definition db_open (t : Tables) : Session := {| committed := t; pending := t |}.
Definition db_commit (s : Session) : Session :=
  {| committed := pending s; pending := pending s |}.
Definition db_close (s : Session) : Tables := committed s.

Definition on_pending (f : Tables -> Tables) (s : Session) : Session :=
  {| committed := committed s; pending := f (pending s) |}.

(** [db.query(NoteEmbedding).filter(NoteEmbedding.note_id == i).delete()]. *)
Definition delete_embeddings_of (i : Z) (t : Tables) : Tables :=
  {| notes := notes t;
     note_embeddings :=
       filter (fun ne => embedding_note_id ne <> i) (note_embeddings t);
     notes_seq := notes_seq t;
     note_embeddings_seq := note_embeddings_seq t |}.

(** [db.add(NoteEmbedding(note_id=i, embedding=e))], flushed: the row takes the
    next key and [created_at] its default. *)
Definition insert_embedding (i : Z) (e : list score) (now : string) (t : Tables)
    : Tables :=
  let key := note_embeddings_seq t + 1 in
  {| notes := notes t;
     note_embeddings :=
       note_embeddings t ++
       [{| embedding_id := key; embedding_note_id := i; embedding := e;
           embedding_created_at := now |}];
     notes_seq := notes_seq t;
     note_embeddings_seq := key |}.

(** [db.add(Note(title=.., content=..))], flushed. *)
Definition insert_note (n : Note) (t : Tables) : Tables :=
  {| notes := notes t ++ [n];
     note_embeddings := note_embeddings t;
     notes_seq := note_id n;
     note_embeddings_seq := note_embeddings_seq t |}.

(** The UPDATE of one note row. *)
Definition replace_note (n : Note) (t : Tables) : Tables :=
  {| notes := map (fun m => if bool_decide (note_id m = note_id n) then n else m)
                  (notes t);
     note_embeddings := note_embeddings t;
     notes_seq := notes_seq t;
     note_embeddings_seq := note_embeddings_seq t |}.

(** [db.delete(db_note)]: the row goes, and with it its embeddings (the
    relationship cascades, and so does the foreign key). *)
Definition delete_note_row (i : Z) (t : Tables) : Tables :=
  {| notes := filter (fun m => note_id m <> i) (notes t);
     note_embeddings :=
       filter (fun ne => embedding_note_id ne <> i) (note_embeddings t);
     notes_seq := notes_seq t;
     note_embeddings_seq := note_embeddings_seq t |}.

(** [db.query(Note).filter(Note.id == i).first()]. *)
Definition find_note (i : Z) (t : Tables) : option Note :=
  head (filter (fun m => note_id m = i) (notes t)).

(** ** The similarity query of [_get_relevant_notes] *)

(** A row of [notes n JOIN note_embeddings ne ON n.id = ne.note_id]. *)
Definition Joined : Type := Note * NoteEmbedding.

(** The join, produced in the order of a scan of [note_embeddings]. *)
Definition join_rows (t : Tables) : list Joined :=
  ne ← note_embeddings t;
  n ← filter (fun m => note_id m = embedding_note_id ne) (notes t);
  [(n, ne)].

(** The sort key [ne.embedding <=> query]. *)
Definition distance (query : list score) (row : Joined) : score :=
  cosine_distance (embedding (snd row)) query.

(** [ORDER BY ne.embedding <=> query], smallest distance first.  The statement
    names no second key: rows at the same distance stay in the order in which
    the join produced them. *)
Fixpoint insert_by (query : list score) (x : Joined) (l : list Joined)
    : list Joined :=
  match l with
  | [] => [x]
  | y :: l' =>
      if score_le (distance query x) (distance query y)
      then x :: y :: l'
      else y :: insert_by query x l'
  end.

Definition order_by_distance (query : list score) (rows : list Joined)
    : list Joined :=
  foldr (insert_by query) [] rows.

(** One of the dicts returned by [_get_relevant_notes]. *)
Record RelevantNote : Type := {
  rn_id : Z;
  rn_title : string;
  rn_content : string;
  rn_similarity : score;
  rn_created_at : string;
  rn_updated_at : string
}.

(** The select list, with [1 - (ne.embedding <=> query) as similarity]. *)
Definition project (query : list score) (row : Joined) : RelevantNote :=
  {| rn_id := note_id (fst row);
     rn_title := title (fst row);
     rn_content := note_content (fst row);
     rn_similarity := one_minus (distance query row);
     rn_created_at := created_at (fst row);
     rn_updated_at := updated_at (fst row) |}.

(** [db.execute(query_sql, {"top_k": top_k}).fetchall()]; PostgreSQL refuses a
    negative [LIMIT]. *)
Definition execute_query (query : list score) (top_k : Z) (t : Tables)
    : Outcome (list RelevantNote) :=
  if top_k <? 0 then Raise "LIMIT must not be negative"
  else Ok (map (project query)
             (take (Z.to_nat top_k) (order_by_distance query (join_rows t)))).

(** ** The state threaded through a request *)

Record World : Type := {
  conversation_manager : ConversationManager;
  tables : Tables;
  trace : list Event
}.

Definition M (A : Type) : Type := World -> A * World.

#[export] Instance M_ret : MRet M := fun A a w => (a, w).
#[export] Instance M_bind : MBind M :=
  fun A B f c w => let '(a, w') := c w in f a w'.

Definition emit (e : Event) : M unit :=
  fun w => (tt, {| conversation_manager := conversation_manager w;
                   tables := tables w;
                   trace := trace w ++ [e] |}).

Definition calls_so_far : M nat := fun w => (length (trace w), w).

(** [self.embeddings.embed_query(text)]. *)
Definition call_embed_query (text : string) : M (Outcome (list score)) :=
  n ← calls_so_far; emit (EmbedQuery text);; mret (embed_query n text).

(** [ollama.chat(model, messages, options)["message"]["content"]]. *)
Definition call_ollama_chat (messages : list ChatMessage) : M (Outcome string) :=
  n ← calls_so_far; emit (OllamaChat messages);; mret (ollama_chat n messages).

(** [datetime.utcnow().isoformat()]. *)
Definition call_utcnow : M string :=
  n ← calls_so_far; emit UtcNow;; mret (utcnow_isoformat n).

Definition read_tables : M Tables := fun w => (tables w, w).

Definition write_tables (t : Tables) : M unit :=
  fun w => (tt, {| conversation_manager := conversation_manager w;
                   tables := t;
                   trace := trace w |}).

(** A manager method run on [self.conversation_manager]. *)
Definition on_manager {A} (f : ConversationManager -> A * ConversationManager)
    : M A :=
  fun w => let '(a, mgr) := f (conversation_manager w) in
           (a, {| conversation_manager := mgr;
                  tables := tables w;
                  trace := trace w |}).

(** ** services/llm_service.py *)

(** [LLMService.get_embedding]: any exception becomes [None]. *)
Definition get_embedding (text : string) : M (option (list score)) :=
  r ← call_embed_query text;
  mret (match r with Ok e => Some e | Raise _ => None end).

(** [LLMService.generate_response]: the messages are copied field by field,
    the chat model is called, any exception becomes [None]; the method itself
    never raises. *)
Definition generate_response (messages : list ChatMessage)
    : M (Outcome (option string)) :=
  let ollama_messages :=
    map (fun msg => {| role := role msg; chat_content := chat_content msg |})
        messages in
  r ← call_ollama_chat ollama_messages;
  mret (Ok (match r with Ok text => Some text | Raise _ => None end)).

(** ** rag_service.py *)

(** [models.AskResponse]. *)
Record AskResponse : Type := {
  answer : string;
  sources : option (list string)
}.

Definition _get_embedding (text : string) : M (option (list score)) :=
  get_embedding text.

(** [RAGService.add_note], on the session of the calling handler.  The test
    [if embedding:] holds for a list that is neither [None] nor empty. *)
Definition add_note (note : Note) (s : Session) : M Session :=
  let text_content := title note +:+ " " +:+ note_content note in
  e ← _get_embedding text_content;
  match e with
  | Some (x :: v) =>
      now ← call_utcnow;
      mret (db_commit (on_pending (insert_embedding (note_id note) (x :: v) now) s))
  | _ => mret s
  end.

(** [RAGService.update_note]: the DELETE is issued, not committed; the commit
    is the one of [add_note]. *)
Definition update_note (note : Note) (s : Session) : M Session :=
  add_note note (on_pending (delete_embeddings_of (note_id note)) s).

(** [RAGService.remove_note]. *)
Definition remove_note (i : Z) (s : Session) : Session :=
  db_commit (on_pending (delete_embeddings_of i) s).

(** [RAGService._get_relevant_notes]. *)
Definition _get_relevant_notes (query : string) (top_k : Z)
    : M (Outcome (list RelevantNote)) :=
  query_embedding ← _get_embedding query;
  match query_embedding with
  | Some (x :: v) => t ← read_tables; mret (execute_query (x :: v) top_k t)
  | _ => mret (Ok [])
  end.

Definition no_notes_answer : string :=
  "I don't have any notes to search through. Please add some notes first.".

Definition generation_failed_answer : string :=
  "Sorry, I encountered an error while processing your question.".

Definition system_message : ChatMessage :=
  {| role := "system";
     chat_content := "You are a helpful assistant that answers questions based on provided notes. Be concise and accurate." |}.

(** The f-string appended to [context_parts]. *)
Definition context_part (n : RelevantNote) : string :=
  "Note '" +:+ rn_title n +:+ "': " +:+ rn_content n.

(** The f-string appended to [sources]. *)
Definition source_line (n : RelevantNote) : string :=
  "Note " +:+ str_int (rn_id n) +:+ ": " +:+ rn_title n +:+
  " (similarity: " +:+ format_2f (rn_similarity n) +:+ ")".

(** A message of the recent context as a chat message. *)
Definition chat_of_message (msg : BaseMessage) : ChatMessage :=
  {| role := if is_human msg then "user" else "assistant";
     chat_content := content msg |}.

(** The final user message. *)
Definition question_message (question context : string) : ChatMessage :=
  {| role := "user";
     chat_content :=
       "Based on the following notes, please answer the question: '" +:+ question
       +:+ "'" +:+ nl +:+ nl +:+ "Notes:" +:+ nl +:+ context +:+ nl +:+ nl +:+
       "Please provide a helpful answer based on the information in the notes. If the answer cannot be found in the notes, please say so clearly." |}.

(** The message list handed to the chat model. *)
Definition build_messages (question : string) (relevant_notes : list RelevantNote)
    (recent_context : list BaseMessage) : list ChatMessage :=
  let context := join (nl +:+ nl) (map context_part relevant_notes) in
  [system_message]
  ++ map chat_of_message (py_slice_from (-4) recent_context)
  ++ [question_message question context].

(** [self.conversation_manager.add_message(user_id, text, is_user=..)] with
    the default conversation id. *)
Definition manager_add_message (user_id text : string) (is_user : bool) : M unit :=
  now ← call_utcnow;
  on_manager (fun mgr => (tt, add_message now user_id text is_user "default" mgr)).

(** [RAGService.ask_question].  An [Outcome] because an exception of the
    retrieval step is not caught here. *)
Definition ask_question (question user_id : string) : M (Outcome AskResponse) :=
  r ← _get_relevant_notes question 3;
  match r with
  | Raise exn => mret (Raise exn)
  | Ok [] => mret (Ok {| answer := no_notes_answer; sources := Some [] |})
  | Ok relevant_notes =>
      let sources := map source_line relevant_notes in
      recent_context ← on_manager (get_recent_context user_id);
      let messages := build_messages question relevant_notes recent_context in
      generated ← generate_response messages;
      match generated with
      | Ok (Some text) =>
          if str_truthy text then
            manager_add_message user_id question true;;
            manager_add_message user_id text false;;
            mret (Ok {| answer := text; sources := Some sources |})
          else
            mret (Ok {| answer := generation_failed_answer; sources := Some [] |})
      | Ok None =>
          mret (Ok {| answer := generation_failed_answer; sources := Some [] |})
      | Raise exn =>
          mret (Ok {| answer := "Sorry, I encountered an error while processing your question: " +:+ exn;
                      sources := Some [] |})
      end
  end.

(** ** main.py: the handlers that change notes *)

Definition with_session {A} (body : Session -> M (A * Session)) : M A :=
  t ← read_tables;
  '(a, s) ← body (db_open t);
  write_tables (db_close s);;
  mret a.

(** [POST /api/notes]. *)
Definition create_note (new_title new_content : string) : M Note :=
  with_session (fun s =>
    created ← call_utcnow;
    updated ← call_utcnow;
    let db_note :=
      {| note_id := notes_seq (pending s) + 1;
         title := new_title; note_content := new_content;
         created_at := created; updated_at := updated |} in
    let s := db_commit (on_pending (insert_note db_note) s) in
    s ← add_note db_note s;
    mret (db_note, s)).

(** [PUT /api/notes/{note_id}]; [onupdate] stamps [updated_at] when the
    commit has something to write. *)
Definition update_note_handler (i : Z) (new_title new_content : option string)
    : M (Outcome Note) :=
  with_session (fun s =>
    match find_note i (pending s) with
    | None => mret (Raise "404: Note not found", s)
    | Some db_note =>
        let title' := default (title db_note) new_title in
        let content' := default (note_content db_note) new_content in
        let dirty := negb (bool_decide (title' = title db_note
                                        /\ content' = note_content db_note)) in
        stamp ← (if dirty then call_utcnow else mret (updated_at db_note));
        let db_note :=
          {| note_id := note_id db_note;
             title := title'; note_content := content';
             created_at := created_at db_note; updated_at := stamp |} in
        let s := db_commit (on_pending (replace_note db_note) s) in
        s ← update_note db_note s;
        mret (Ok db_note, s)
    end).

(** [DELETE /api/notes/{note_id}]. *)
Definition delete_note (i : Z) : M (Outcome unit) :=
  with_session (fun s =>
    match find_note i (pending s) with
    | None => mret (Raise "404: Note not found", s)
    | Some db_note =>
        let s := db_commit (on_pending (delete_note_row (note_id db_note)) s) in
        mret (Ok tt, remove_note i s)
    end).

(** [GET /api/notes/{note_id}]. *)
Definition get_note (i : Z) : M (Outcome Note) :=
  with_session (fun s =>
    match find_note i (pending s) with
    | None => mret (Raise "404: Note not found", s)
    | Some note => mret (Ok note, s)
    end).

(** [GET /api/notes]: [db.query(Note).offset(skip).limit(limit).all()], the
    rows in storage order; PostgreSQL refuses a negative OFFSET or LIMIT. *)
Definition get_notes (skip limit : Z) : M (Outcome (list Note)) :=
  with_session (fun s =>
    if (skip <? 0) || (limit <? 0)
    then mret (Raise "OFFSET and LIMIT must not be negative", s)
    else mret (Ok (take (Z.to_nat limit) (drop (Z.to_nat skip) (notes (pending s)))),
               s)).

(** [POST /api/ask]: an exception of the service becomes a 500. *)
Definition ask_question_handler (question user_id : string)
    : M (Outcome AskResponse) :=
  r ← ask_question question user_id;
  match r with
  | Ok response => mret (Ok response)
  | Raise exn => mret (Raise ("500: Error processing question: " +:+ exn))
  end.

(** A request that changes notes, and a run of such requests. *)
Inductive NoteRequest : Type :=
  | CreateNote (new_title new_content : string)
  | UpdateNote (i : Z) (new_title new_content : option string)
  | DeleteNote (i : Z).

Definition handle (req : NoteRequest) : M unit :=
  match req with
  | CreateNote t c => create_note t c;; mret tt
  | UpdateNote i t c => update_note_handler i t c;; mret tt
  | DeleteNote i => delete_note i;; mret tt
  end.

Fixpoint handle_all (reqs : list NoteRequest) : M unit :=
  match reqs with
  | [] => mret tt
  | req :: reqs' => handle req;; handle_all reqs'
  end.

(** The vectors stored for a note id. *)
Definition vectors_of (i : Z) (t : Tables) : list NoteEmbedding :=
  filter (fun ne => embedding_note_id ne = i) (note_embeddings t).

(** The state of the vector index that the handlers maintain: no note id has
    two vectors, and no key runs ahead of the notes' sequence. *)
Definition index_consistent (t : Tables) : Prop :=
  (forall i, (length (vectors_of i t) <= 1)%nat)
  /\ Forall (fun ne => embedding_note_id ne <= notes_seq t) (note_embeddings t)
  /\ Forall (fun n => note_id n <= notes_seq t) (notes t).

(** The keys of the two tables fit together: no two notes share an id, and
    every vector belongs to a note of the table. *)
Definition index_sound (t : Tables) : Prop :=
  NoDup (map note_id (notes t))
  /\ Forall (fun ne => embedding_note_id ne ∈ map note_id (notes t))
       (note_embeddings t).

Definition initial_world : World :=
  {| conversation_manager := ∅; tables := empty_tables; trace := [] |}.

(** What the retrieval step of a question returns in a world. *)
Definition retrieved (question : string) (w : World) : Outcome (list RelevantNote) :=
  fst (_get_relevant_notes question 3 w).

(** What the chat model answers to the prompt of a question: its call is the
    second one of the request, after the embedding of the question. *)
Definition generated (question user_id : string) (relevant_notes : list RelevantNote)
    (w : World) : Outcome string :=
  ollama_chat (S (length (trace w)))
    (build_messages question relevant_notes
       (recent_window user_id (conversation_manager w))).

(** The world after further outside calls. *)
Definition after_calls (events : list Event) (w : World) : World :=
  {| conversation_manager := conversation_manager w;
     tables := tables w;
     trace := trace w ++ events |}.

End Model.

(** ** A runtime with exact scores

    Scores are rationals, compared and subtracted exactly; a finite double is
    such a rational, and [.2f] rounds its exact value to the nearest hundredth,
    ties to even.  The distance is the cosine distance of unit vectors,
    [1 - a.b]. *)

Fixpoint dot (a b : list Q) : Q :=
  match a, b with
  | x :: a', y :: b' => (x * y + dot a' b')%Q
  | _, _ => 0%Q
  end.

Definition unit_cosine_distance (a b : list Q) : Q := (1 - dot a b)%Q.

(** The nearest integer, ties to even, of a non-negative rational. *)
Definition round_half_even (x : Q) : Z :=
  let f := Qfloor x in
  match ((x - inject_Z f) ?= (1 # 2))%Q with
  | Lt => f
  | Gt => f + 1
  | Eq => if Z.even f then f else f + 1
  end.

Definition two_digits (n : Z) : string :=
  (if n <? 10 then "0" else "") +:+ str_int n.

Definition format_2f_exact (x : Q) : string :=
  let h := round_half_even (Qabs x * inject_Z 100)%Q in
  (if Qle_bool 0 x then "" else "-") +:+
  str_int (h / 100) +:+ "." +:+ two_digits (h mod 100).

Definition exact_runtime (embed : nat -> string -> Outcome (list Q))
    (chat : nat -> list ChatMessage -> Outcome string) (clock : nat -> string)
    : Runtime :=
  {| score := Q;
     score_le := Qle_bool;
     cosine_distance := unit_cosine_distance;
     one_minus := fun x => (1 - x)%Q;
     format_2f := format_2f_exact;
     embed_query := embed;
     ollama_chat := chat;
     utcnow_isoformat := clock |}.

(** Sample oracles.  The embedding model reads the first letter of a text:
    texts in B go north, texts in W halfway between, all others east; equal
    texts get equal vectors.  A model that is down, a chat model that answers,
    one that raises, and a clock that shows the number of calls so far. *)
Definition embed_by_initial : nat -> string -> Outcome (list Q) :=
  fun _ text =>
    match text with
    | String "B" _ => Ok [0%Q; 1%Q]
    | String "W" _ => Ok [(4 # 5)%Q; (3 # 5)%Q]
    | _ => Ok [1%Q; 0%Q]
    end.
Definition embed_down : nat -> string -> Outcome (list Q) :=
  fun _ _ => Raise "connection refused".
Definition chat_paris : nat -> list ChatMessage -> Outcome string :=
  fun _ _ => Ok "Paris.".
Definition chat_down : nat -> list ChatMessage -> Outcome string :=
  fun _ _ => Raise "connection refused".
Definition tick_clock : nat -> string :=
  fun n => "t" +:+ str_int (Z.of_nat n).

(** The letter-reading model for the first [n] outside calls, down after. *)
Definition embed_until (n : nat) : nat -> string -> Outcome (list Q) :=
  fun k text =>
    if (k <? n)%nat then embed_by_initial k text else Raise "connection refused".

Definition demo_runtime : Runtime :=
  exact_runtime embed_by_initial chat_paris tick_clock.
Definition deaf_runtime : Runtime := exact_runtime embed_down chat_paris tick_clock.
Definition mute_runtime : Runtime :=
  exact_runtime embed_by_initial chat_down tick_clock.

(** Three notes, the first two with the same text; then note 1 is saved again,
    which stores its vector anew, after those of notes 2 and 3. *)
Definition sample_requests : list NoteRequest :=
  [CreateNote "Paris" "capital of France";
   CreateNote "Paris" "capital of France";
   CreateNote "Berlin" "capital of Germany";
   UpdateNote 1 None (Some "capital of France")].

Definition sample_world (rt : Runtime) : @World rt :=
  snd (@handle_all rt sample_requests (@initial_world rt)).

(** A runtime whose model goes down right after the sample requests, which
    make 14 outside calls. *)
Definition fading_runtime : Runtime :=
  exact_runtime (embed_until 14) chat_paris tick_clock.

Definition sample_question : string := "Where is the capital of France?".

(** A turn of user [u] in the default conversation. *)
Definition turn_of (u text : string) (from_user : bool) (now : string) : Turn :=
  {| turn_user := u; turn_text := text; turn_is_user := from_user;
     turn_conversation := "default"; turn_now := now |}.

(** [n] turns of user ["u"], numbered from [start]. *)
Fixpoint numbered_turns (start : nat) (n : nat) : list Turn :=
  match n with
  | O => []
  | S n' =>
      turn_of "u" (str_int (Z.of_nat start)) true "t" :: numbered_turns (S start) n'
  end.

(** * Properties *)

(** ** Slices *)

Lemma py_slice_from_zero {A} (l : list A) : py_slice_from 0 l = l.
Proof.
  unfold py_slice_from. simpl.
  replace (Z.to_nat (Z.min 0 (Z.of_nat (length l)))) with 0%nat by lia.
  reflexivity.
Qed.

Lemma py_slice_from_negative {A} (n : Z) (l : list A) :
  0 < n -> py_slice_from (- n) l = last_n (Z.to_nat n) l.
Proof.
  intros Hn. unfold py_slice_from, last_n.
  destruct (Z.ltb_spec (- n) 0) as [_ | ?]; [| lia].
  f_equal. lia.
Qed.

Lemma last_n_length {A} (n : nat) (l : list A) :
  length (last_n n l) = Nat.min n (length l).
Proof. unfold last_n. rewrite length_drop. lia. Qed.

Lemma last_n_all {A} (n : nat) (l : list A) :
  (length l <= n)%nat -> last_n n l = l.
Proof.
  intros Hle. unfold last_n.
  replace (length l - n)%nat with 0%nat by lia. reflexivity.
Qed.

Lemma last_n_app_last_n {A} (n : nat) (a b : list A) :
  last_n n (last_n n a ++ b) = last_n n (a ++ b).
Proof.
  destruct (Nat.le_gt_cases (length a) n) as [Hle | Hgt].
  - rewrite (last_n_all n a) by exact Hle. reflexivity.
  - unfold last_n at 1 3. rewrite !length_app, last_n_length.
    replace (Nat.min n (length a) + length b - n)%nat with (length b) by lia.
    replace (length a + length b - n)%nat
      with ((length a - n) + length b)%nat by lia.
    rewrite <- drop_drop. f_equal.
    unfold last_n. symmetry. apply drop_app_le. lia.
Qed.

Lemma last_n_suffix {A} (n : nat) (l : list A) : exists older, l = older ++ last_n n l.
Proof. exists (take (length l - n) l). unfold last_n. symmetry. apply take_drop. Qed.

(** The trimming step of [add_message] keeps the last hundred entries. *)
Lemma keep_last_hundred {A} (l : list A) :
  (if 100 <? Z.of_nat (length l) then py_slice_from (-100) l else l)
  = last_n 100 l.
Proof.
  destruct (Z.ltb_spec 100 (Z.of_nat (length l))) as [Hgt | Hle].
  - change (-100) with (- (100)). rewrite py_slice_from_negative by lia.
    reflexivity.
  - symmetry. apply last_n_all. lia.
Qed.

(** ** The conversation manager *)

Lemma get_user_memory_value (u : string) (mgr : ConversationManager) :
  fst (get_user_memory u mgr) = default new_user_memory (mgr !! u).
Proof. unfold get_user_memory. destruct (mgr !! u); reflexivity. Qed.

Lemma get_user_memory_lookup (u u' : string) (mgr : ConversationManager) :
  default new_user_memory (snd (get_user_memory u mgr) !! u')
  = default new_user_memory (mgr !! u').
Proof.
  unfold get_user_memory. destruct (mgr !! u) eqn:Hu; simpl; [reflexivity |].
  destruct (decide (u = u')) as [<- | Hne].
  - rewrite lookup_insert_eq, Hu. reflexivity.
  - rewrite lookup_insert_ne by exact Hne. reflexivity.
Qed.

Lemma get_user_memory_present (u : string) (mgr : ConversationManager) :
  is_Some (mgr !! u) -> snd (get_user_memory u mgr) = mgr.
Proof. intros [um Hum]. unfold get_user_memory. rewrite Hum. reflexivity. Qed.

Lemma full_log_lookup (u : string) (mgr : ConversationManager) :
  full_log u mgr = conversations (default new_user_memory (mgr !! u)).
Proof. unfold full_log. rewrite get_user_memory_value. reflexivity. Qed.

Lemma recent_window_lookup (u : string) (mgr : ConversationManager) :
  recent_window u mgr
  = chat_memory_messages (buffer_memory (default new_user_memory (mgr !! u))).
Proof.
  unfold recent_window, get_recent_context, get_user_memory.
  destruct (mgr !! u); reflexivity.
Qed.

(** The entry [add_message] leaves in the registry for its user. *)
Lemma add_message_lookup (now u m : string) (b : bool) (c : string)
    (mgr : ConversationManager) :
  add_message now u m b c mgr !! u =
  let um := default new_user_memory (mgr !! u) in
  Some {| summary_memory := summary_memory um;
          buffer_memory :=
            save_context (if b then m else "") (if negb b then m else "")
                         (buffer_memory um);
          conversations :=
            last_n 100 (conversations um ++
                        [{| id := c; timestamp := now; message := m; is_user := b |}]);
          context := context um |}.
Proof.
  unfold add_message, get_user_memory.
  destruct (mgr !! u) as [um |]; cbv beta iota zeta;
    rewrite lookup_insert_eq, keep_last_hundred; reflexivity.
Qed.

Lemma add_message_lookup_other (now u u' m : string) (b : bool) (c : string)
    (mgr : ConversationManager) :
  u <> u' -> add_message now u m b c mgr !! u' = mgr !! u'.
Proof.
  intros Hne. unfold add_message, get_user_memory.
  destruct (mgr !! u) as [um |]; cbv beta iota zeta;
    rewrite !lookup_insert_ne by exact Hne; reflexivity.
Qed.

Lemma full_log_record_turn (t : Turn) (u : string) (mgr : ConversationManager) :
  full_log u (record_turn t mgr) =
  if decide (turn_user t = u)
  then last_n 100 (full_log u mgr ++ [conversation_of t])
  else full_log u mgr.
Proof.
  rewrite !full_log_lookup. unfold record_turn.
  destruct (decide (turn_user t = u)) as [<- | Hne].
  - rewrite add_message_lookup. reflexivity.
  - rewrite add_message_lookup_other by exact Hne. reflexivity.
Qed.

Lemma recent_window_record_turn (t : Turn) (u : string) (mgr : ConversationManager) :
  recent_window u (record_turn t mgr) =
  if decide (turn_user t = u)
  then recent_window u mgr ++ messages_of t
  else recent_window u mgr.
Proof.
  rewrite !recent_window_lookup. unfold record_turn.
  destruct (decide (turn_user t = u)) as [<- | Hne].
  - rewrite add_message_lookup. reflexivity.
  - rewrite add_message_lookup_other by exact Hne. reflexivity.
Qed.

Lemma record_all_cons (t : Turn) (ts : list Turn) (mgr : ConversationManager) :
  record_all (t :: ts) mgr = record_all ts (record_turn t mgr).
Proof. reflexivity. Qed.

(** The log of a user after a run of calls, from a registry that respects the
    cap. *)
Lemma full_log_record_all (ts : list Turn) (u : string) (mgr : ConversationManager) :
  (length (full_log u mgr) <= 100)%nat ->
  full_log u (record_all ts mgr) =
  last_n 100 (full_log u mgr
              ++ map conversation_of (filter (fun t => turn_user t = u) ts)).
Proof.
  revert mgr. induction ts as [| t ts IH]; intros mgr Hcap.
  - simpl. rewrite app_nil_r. symmetry. apply last_n_all. exact Hcap.
  - rewrite record_all_cons, IH.
    + rewrite full_log_record_turn, filter_cons.
      destruct (decide (turn_user t = u)) as [Heq | Hne].
      * rewrite last_n_app_last_n. simpl. rewrite <- app_assoc. reflexivity.
      * reflexivity.
    + rewrite full_log_record_turn.
      destruct (decide (turn_user t = u)); [| exact Hcap].
      rewrite last_n_length. lia.
Qed.

(** The chat history of a user after a run of calls: nothing is dropped. *)
Lemma recent_window_record_all (ts : list Turn) (u : string)
    (mgr : ConversationManager) :
  recent_window u (record_all ts mgr) =
  recent_window u mgr
  ++ concat (map messages_of (filter (fun t => turn_user t = u) ts)).
Proof.
  revert mgr. induction ts as [| t ts IH]; intros mgr.
  - simpl. rewrite app_nil_r. reflexivity.
  - rewrite record_all_cons, IH, recent_window_record_turn, filter_cons.
    destruct (decide (turn_user t = u)); [| reflexivity].
    simpl. rewrite <- app_assoc. reflexivity.
Qed.

Lemma full_log_empty (u : string) : full_log u ∅ = [].
Proof. reflexivity. Qed.

Lemma recent_window_empty (u : string) : recent_window u ∅ = [].
Proof. reflexivity. Qed.

Lemma last_n_keeps_tail {A} (n : nat) (a b : list A) (x : A) :
  x ∈ b -> (length b <= n)%nat -> x ∈ last_n n (a ++ b).
Proof.
  intros Hin Hlen. unfold last_n.
  rewrite drop_app_le by (rewrite length_app; lia).
  apply elem_of_app. right. exact Hin.
Qed.

Lemma history_positive_limit (u c : string) (limit : Z) (mgr : ConversationManager) :
  0 < limit ->
  fst (get_conversation_history u c limit mgr)
  = last_n (Z.to_nat limit) (filter (fun conv => id conv = c) (full_log u mgr)).
Proof.
  intros Hpos. unfold get_conversation_history, full_log.
  destruct (get_user_memory u mgr) as [um mgr']. simpl.
  apply py_slice_from_negative. exact Hpos.
Qed.

Lemma history_limit_zero (u c : string) (mgr : ConversationManager) :
  fst (get_conversation_history u c 0 mgr)
  = filter (fun conv => id conv = c) (full_log u mgr).
Proof.
  unfold get_conversation_history, full_log.
  destruct (get_user_memory u mgr) as [um mgr']. simpl.
  apply py_slice_from_zero.
Qed.

(** C5 (as the code runs): [get_recent_context] hands out the whole chat
    history of the buffer memory, which no call ever shortens.  After [n] turns
    of a user it holds [2 * n] messages; after the 15 turns of the spec's
    example (W = 10, W + 5 turns) it holds 30 messages, while the window view
    [buffer] of the same object, which the manager never reads, holds 20. *)
Theorem recent_context_is_never_trimmed :
  (forall (ts : list Turn) (u : string),
     length (recent_window u (record_all ts ∅))
     = (2 * length (filter (fun t => turn_user t = u) ts))%nat)
  /\ length (recent_window "u" (record_all (numbered_turns 0 15) ∅)) = 30%nat
  /\ length (buffer (buffer_memory
       (fst (get_user_memory "u" (record_all (numbered_turns 0 15) ∅))))) = 20%nat.
Proof.
  split; [| split; vm_compute; reflexivity].
  intros ts u. rewrite recent_window_record_all, recent_window_empty. simpl.
  induction (filter (fun t => turn_user t = u) ts) as [| t l IH]; simpl; lia.
Qed.

(** C6: after any run of [add_message] calls on a new manager, the log of a
    user is the last 100 of the turns recorded for that user, in the order of
    recording: it never holds more than 100 entries, it holds exactly 100 once
    more than 100 were recorded, and what is missing is the oldest part. *)
Theorem full_log_keeps_last_hundred (ts : list Turn) (u : string) :
  let recorded := map conversation_of (filter (fun t => turn_user t = u) ts) in
  let log := full_log u (record_all ts ∅) in
  log = last_n 100 recorded
  /\ (length log <= 100)%nat
  /\ length log = Nat.min 100 (length recorded)
  /\ exists evicted, recorded = evicted ++ log.
Proof.
  intros recorded log.
  assert (Hlog : log = last_n 100 recorded).
  { unfold log. rewrite full_log_record_all by (rewrite full_log_empty; simpl; lia).
    rewrite full_log_empty. reflexivity. }
  rewrite Hlog. split; [reflexivity |].
  rewrite last_n_length. split; [lia |]. split; [reflexivity |].
  apply last_n_suffix.
Qed.

(** C9 (as the code runs): with [limit = 0] the slice [[-limit:]] is [[0:]],
    so [get_conversation_history] returns every turn of the conversation
    instead of none; here all three recorded turns come back. *)
Theorem history_with_limit_zero_returns_everything :
  fst (get_conversation_history "u" "default" 0
         (record_all (numbered_turns 0 3) ∅))
  = map conversation_of (numbered_turns 0 3)
  /\ length (fst (get_conversation_history "u" "default" 0
                    (record_all (numbered_turns 0 3) ∅))) = 3%nat.
Proof. split; vm_compute; reflexivity. Qed.

(** C10: one [add_message] call appends to the user's chat history a human
    message and an AI message, the side that does not match [is_user] with
    empty content; that empty message is among the last four messages, and
    therefore in the message list built for the chat model. *)
Theorem add_message_saves_a_padded_pair `{R : Runtime}
    (now u m : string) (b : bool) (c : string) (mgr : ConversationManager)
    (question : string) (notes : list RelevantNote) :
  let padding := if b then AIMessage "" else HumanMessage "" in
  let after := recent_window u (add_message now u m b c mgr) in
  after = recent_window u mgr
          ++ [HumanMessage (if b then m else ""); AIMessage (if b then "" else m)]
  /\ padding ∈ py_slice_from (-4) after
  /\ {| role := if b then "assistant" else "user"; chat_content := "" |}
     ∈ build_messages question notes after.
Proof.
  intros padding after.
  assert (Hafter : after = recent_window u mgr
            ++ [HumanMessage (if b then m else ""); AIMessage (if b then "" else m)]).
  { unfold after. rewrite !recent_window_lookup, add_message_lookup.
    destruct b; reflexivity. }
  assert (Hslice : padding ∈ py_slice_from (-4) after).
  { rewrite Hafter. change (-4) with (- (4)).
    rewrite py_slice_from_negative by lia.
    apply last_n_keeps_tail; [| simpl; lia].
    unfold padding. destruct b; set_solver. }
  split; [exact Hafter |]. split; [exact Hslice |].
  unfold build_messages. apply elem_of_cons. right.
  apply elem_of_app. left.
  replace {| role := if b then "assistant" else "user"; chat_content := "" |}
    with (chat_of_message padding) by (unfold padding; destruct b; reflexivity).
  apply list_elem_of_fmap_2. exact Hslice.
Qed.

(** ** The question-answering pipeline *)

(** Unfolds the plumbing of a handler run on a world. *)
Ltac run_world :=
  unfold mbind, mret, M_bind, M_ret, calls_so_far, emit, read_tables,
    write_tables, on_manager in *;
  cbn beta iota zeta in *.

Section Pipeline.
Context {R : Runtime}.

Lemma copied_messages (messages : list ChatMessage) :
  map (fun msg => {| role := role msg; chat_content := chat_content msg |}) messages
  = messages.
Proof.
  induction messages as [| [r c] l IH]; simpl; [reflexivity |].
  rewrite IH. reflexivity.
Qed.

Lemma length_snoc {A} (l : list A) (x : A) : length (l ++ [x]) = S (length l).
Proof. rewrite length_app. simpl. lia. Qed.

(** The retrieval step: one embedding call, then the query unless the
    embedding is missing or empty. *)
Lemma get_relevant_notes_run (query : string) (top_k : Z) (w : World) :
  _get_relevant_notes query top_k w =
  (match embed_query (length (trace w)) query with
   | Ok (x :: v) => execute_query (x :: v) top_k (tables w)
   | _ => Ok []
   end,
   after_calls [EmbedQuery query] w).
Proof.
  unfold _get_relevant_notes, _get_embedding, get_embedding, call_embed_query.
  run_world. destruct (embed_query (length (trace w)) query) as [[| x v] | exn];
    reflexivity.
Qed.

Lemma join_rows_no_vectors (t : Tables) :
  note_embeddings t = [] -> join_rows t = [].
Proof. intros Hnone. unfold join_rows. rewrite Hnone. reflexivity. Qed.

Lemma execute_query_no_vectors (query : list score) (t : Tables) :
  note_embeddings t = [] -> execute_query query 3 t = Ok [].
Proof.
  intros Hnone. unfold execute_query. simpl.
  rewrite join_rows_no_vectors by exact Hnone. reflexivity.
Qed.

(** A question whose retrieval step finds nothing. *)
Lemma ask_question_nothing_retrieved (question user_id : string) (w : World) :
  retrieved question w = Ok [] ->
  ask_question question user_id w =
  (Ok {| answer := no_notes_answer; sources := Some [] |},
   after_calls [EmbedQuery question] w).
Proof.
  unfold retrieved, ask_question. intros Hret.
  pose proof (get_relevant_notes_run question 3 w) as Hrun.
  unfold mbind at 1. unfold M_bind.
  destruct (_get_relevant_notes question 3 w) as [r w1].
  simpl in Hret. subst r. injection Hrun as _ ->. reflexivity.
Qed.

(** A question whose retrieval step finds notes: the chat model is asked once,
    and the two turns are recorded only when it answers with text. *)
Lemma ask_question_notes_retrieved (question user_id : string) (w : World)
    (n : RelevantNote) (ns : list RelevantNote) :
  retrieved question w = Ok (n :: ns) ->
  ask_question question user_id w =
  let mgr1 := snd (get_recent_context user_id (conversation_manager w)) in
  let messages :=
    build_messages question (n :: ns)
      (recent_window user_id (conversation_manager w)) in
  let failed :=
    (Ok {| answer := generation_failed_answer; sources := Some [] |},
     {| conversation_manager := mgr1; tables := tables w;
        trace := trace w ++ [EmbedQuery question; OllamaChat messages] |}) in
  match generated question user_id (n :: ns) w with
  | Ok text =>
      if str_truthy text then
        (Ok {| answer := text; sources := Some (map source_line (n :: ns)) |},
         {| conversation_manager :=
              add_message (utcnow_isoformat (length (trace w) + 3))
                user_id text false "default"
                (add_message (utcnow_isoformat (length (trace w) + 2))
                   user_id question true "default" mgr1);
            tables := tables w;
            trace := trace w ++ [EmbedQuery question; OllamaChat messages;
                                 UtcNow; UtcNow] |})
      else failed
  | Raise _ => failed
  end.
Proof.
  unfold retrieved, ask_question, generated. intros Hret.
  pose proof (get_relevant_notes_run question 3 w) as Hrun.
  unfold mbind at 1. unfold M_bind at 1.
  destruct (_get_relevant_notes question 3 w) as [r w1].
  simpl in Hret. subst r. injection Hrun as _ ->.
  unfold generate_response, call_ollama_chat, manager_add_message, call_utcnow,
    recent_window, after_calls.
  run_world. cbn [conversation_manager tables trace].
  destruct (get_recent_context user_id (conversation_manager w)) as [recent mgr1].
  cbn [fst snd conversation_manager tables trace].
  rewrite copied_messages, length_snoc.
  destruct (ollama_chat (S (length (trace w)))
              (build_messages question (n :: ns) recent)) as [text | exn].
  - destruct (str_truthy text); cbn [conversation_manager tables trace].
    + rewrite !length_snoc, <- !app_assoc.
      replace (S (S (length (trace w)))) with (length (trace w) + 2)%nat by lia.
      replace (S (length (trace w) + 2)) with (length (trace w) + 3)%nat by lia.
      reflexivity.
    + rewrite <- !app_assoc. reflexivity.
  - cbn [conversation_manager tables trace]. rewrite <- !app_assoc. reflexivity.
Qed.

(** With its fixed [top_k] of 3 the retrieval step never raises, so neither
    does [ask_question]: every request gets an answer object. *)
Lemma retrieved_never_raises (question : string) (w : World) :
  exists notes, retrieved question w = Ok notes.
Proof.
  unfold retrieved. rewrite get_relevant_notes_run. simpl.
  destruct (embed_query (length (trace w)) question) as [[| x v] | exn];
    eexists; reflexivity.
Qed.

Lemma ask_question_always_answers (question user_id : string) (w : World) :
  exists response, fst (ask_question question user_id w) = Ok response.
Proof.
  destruct (retrieved_never_raises question w) as [[| n ns] Hret].
  - rewrite ask_question_nothing_retrieved by exact Hret. eexists; reflexivity.
  - rewrite (ask_question_notes_retrieved question user_id w n ns Hret). cbv zeta.
    destruct (generated question user_id (n :: ns) w) as [text | exn];
      [destruct (str_truthy text) |]; eexists; reflexivity.
Qed.

Lemma add_message_after_lookup (now u m : string) (b : bool) (c : string)
    (mgr : ConversationManager) :
  add_message now u m b c (snd (get_user_memory u mgr)) = add_message now u m b c mgr.
Proof.
  unfold add_message, get_user_memory.
  destruct (mgr !! u) as [um |] eqn:Hu; cbn [snd].
  - rewrite Hu. reflexivity.
  - rewrite lookup_insert_eq. cbv beta iota zeta.
    rewrite insert_insert_eq. reflexivity.
Qed.

Lemma get_recent_context_registry (u : string) (mgr : ConversationManager) :
  snd (get_recent_context u mgr) = snd (get_user_memory u mgr).
Proof.
  unfold get_recent_context. destruct (get_user_memory u mgr). reflexivity.
Qed.

(** A read of the recent context shows nothing new to any reader. *)
Lemma get_recent_context_observably_pure (u u' : string) (mgr : ConversationManager) :
  recent_window u' (snd (get_recent_context u mgr)) = recent_window u' mgr
  /\ full_log u' (snd (get_recent_context u mgr)) = full_log u' mgr.
Proof.
  rewrite get_recent_context_registry, !recent_window_lookup, !full_log_lookup,
    get_user_memory_lookup.
  split; reflexivity.
Qed.

(** C1 (as the code runs): with no vector in the store, [ask_question] returns
    the canned no-notes answer with an empty sources list, never calls the
    chat model and leaves memory and tables alone; the question is embedded
    all the same, because the embedding call comes before the store is looked
    at: it is the one outside call of the request. *)
Theorem empty_store_answer_without_generation
    (question user_id : string) (w : World) :
  note_embeddings (tables w) = [] ->
  fst (ask_question question user_id w)
    = Ok {| answer := no_notes_answer; sources := Some [] |}
  /\ conversation_manager (snd (ask_question question user_id w))
     = conversation_manager w
  /\ tables (snd (ask_question question user_id w)) = tables w
  /\ trace (snd (ask_question question user_id w))
     = trace w ++ [EmbedQuery question].
Proof.
  intros Hnone.
  rewrite ask_question_nothing_retrieved.
  - repeat split; reflexivity.
  - unfold retrieved. rewrite get_relevant_notes_run. simpl.
    destruct (embed_query (length (trace w)) question) as [[| x v] | exn];
      [reflexivity | | reflexivity].
    apply execute_query_no_vectors. exact Hnone.
Qed.


(** C3: when notes were retrieved and the chat model raises or answers with
    the empty string, [ask_question] returns the degraded answer with no
    sources, and for every user both the recent context and the full log read
    as before the call (the registry itself is unchanged when the asking user
    already had an entry; otherwise it gained that user's empty entry by the
    read of the recent context).  No clock read, hence no [add_message],
    follows the chat call. *)
Theorem failed_generation_records_nothing
    (question user_id : string) (w : World)
    (n : RelevantNote) (ns : list RelevantNote) :
  retrieved question w = Ok (n :: ns) ->
  (exists exn, generated question user_id (n :: ns) w = Raise exn)
  \/ generated question user_id (n :: ns) w = Ok "" ->
  fst (ask_question question user_id w)
    = Ok {| answer := generation_failed_answer; sources := Some [] |}
  /\ (forall u,
        recent_window u (conversation_manager (snd (ask_question question user_id w)))
        = recent_window u (conversation_manager w)
        /\ full_log u (conversation_manager (snd (ask_question question user_id w)))
           = full_log u (conversation_manager w))
  /\ (is_Some (conversation_manager w !! user_id) ->
      conversation_manager (snd (ask_question question user_id w))
      = conversation_manager w)
  /\ trace (snd (ask_question question user_id w))
     = trace w ++ [EmbedQuery question;
                   OllamaChat (build_messages question (n :: ns)
                                 (recent_window user_id (conversation_manager w)))].
Proof.
  intros Hret Hgen.
  rewrite (ask_question_notes_retrieved question user_id w n ns Hret).
  cbv zeta.
  assert (Hfailed :
    match generated question user_id (n :: ns) w with
    | Ok text => str_truthy text = false
    | Raise _ => True
    end).
  { destruct Hgen as [[exn ->] | ->]; [exact I | reflexivity]. }
  destruct (generated question user_id (n :: ns) w) as [text | exn];
    [rewrite Hfailed |]; cbn [fst snd conversation_manager trace];
    (split; [reflexivity |]; split;
     [intros u; apply get_recent_context_observably_pure |];
     split; [| reflexivity];
     intros Hsome; rewrite get_recent_context_registry;
     apply get_user_memory_present; exact Hsome).
Qed.

(** C4: when notes were retrieved and the chat model answers with non-empty
    text, [ask_question] returns that text with one source line per retrieved
    note, [Note <id>: <title> (similarity: <score, 2 decimals>)], in retrieval
    order, and the manager is what two [add_message] calls make of it: the
    question as a user turn, then the answer as an assistant turn.  These are
    the last two entries of the user's log, after the last 98 older ones. *)
Theorem successful_answer_records_two_turns
    (question user_id : string) (w : World)
    (n : RelevantNote) (ns : list RelevantNote) (text : string) :
  retrieved question w = Ok (n :: ns) ->
  generated question user_id (n :: ns) w = Ok text ->
  text <> "" ->
  let asked :=
    {| turn_user := user_id; turn_text := question; turn_is_user := true;
       turn_conversation := "default";
       turn_now := utcnow_isoformat (length (trace w) + 2) |} in
  let answered :=
    {| turn_user := user_id; turn_text := text; turn_is_user := false;
       turn_conversation := "default";
       turn_now := utcnow_isoformat (length (trace w) + 3) |} in
  let w' := snd (ask_question question user_id w) in
  fst (ask_question question user_id w)
    = Ok {| answer := text; sources := Some (map source_line (n :: ns)) |}
  /\ conversation_manager w'
     = record_all [asked; answered] (conversation_manager w)
  /\ full_log user_id (conversation_manager w')
     = last_n 98 (full_log user_id (conversation_manager w))
       ++ [conversation_of asked; conversation_of answered]
  /\ recent_window user_id (conversation_manager w')
     = recent_window user_id (conversation_manager w)
       ++ [HumanMessage question; AIMessage ""; HumanMessage ""; AIMessage text].
Proof.
  intros Hret Hgen Htext asked answered w'.
  assert (Hmgr : conversation_manager w'
                 = record_all [asked; answered] (conversation_manager w)).
  { unfold w'.
    rewrite (ask_question_notes_retrieved question user_id w n ns Hret).
    cbv zeta. rewrite Hgen.
    destruct text as [| a text]; [contradiction |].
    cbn [str_truthy snd conversation_manager].
    rewrite get_recent_context_registry, add_message_after_lookup.
    reflexivity. }
  split; [| split; [exact Hmgr |]; rewrite Hmgr; split].
  - rewrite (ask_question_notes_retrieved question user_id w n ns Hret).
    cbv zeta. rewrite Hgen.
    destruct text as [| a text]; [contradiction |]. reflexivity.
  - change (record_all [asked; answered] (conversation_manager w))
      with (record_turn answered (record_turn asked (conversation_manager w))).
    rewrite !full_log_record_turn. simpl turn_user.
    rewrite !decide_True by reflexivity.
    rewrite last_n_app_last_n, <- app_assoc. simpl app at 2.
    unfold last_n. rewrite length_app. simpl length.
    rewrite drop_app_le by lia. f_equal. f_equal. lia.
  - change (record_all [asked; answered] (conversation_manager w))
      with (record_turn answered (record_turn asked (conversation_manager w))).
    rewrite !recent_window_record_turn. simpl turn_user.
    rewrite !decide_True by reflexivity.
    rewrite <- app_assoc. reflexivity.
Qed.

End Pipeline.

(** ** The similarity query *)

Section Ranking.
Context {R : Runtime} {L : RuntimeLaws R}.

(** [a] is at most as far from the query as [b]. *)
Let closer (query : list score) (a b : Joined) : Prop :=
  score_le (distance query a) (distance query b) = true.

(** [a] is at least as similar as [b]. *)
Let at_least_as_similar (a b : RelevantNote) : Prop :=
  score_le (rn_similarity b) (rn_similarity a) = true.

Lemma insert_by_permutation (query : list score) (x : Joined) (l : list Joined) :
  insert_by query x l ≡ₚ x :: l.
Proof.
  induction l as [| y l IH]; simpl; [reflexivity |].
  destruct (score_le (distance query x) (distance query y)); [reflexivity |].
  rewrite IH. apply Permutation_swap.
Qed.

Lemma order_by_distance_permutation (query : list score) (rows : list Joined) :
  order_by_distance query rows ≡ₚ rows.
Proof.
  induction rows as [| x rows IH]; simpl; [reflexivity |].
  rewrite insert_by_permutation, IH. reflexivity.
Qed.

Lemma insert_by_sorted (query : list score) (x : Joined) (l : list Joined) :
  StronglySorted (closer query) l ->
  StronglySorted (closer query) (insert_by query x l).
Proof.
  induction 1 as [| y l Hsorted IH Hall]; simpl.
  - repeat constructor.
  - destruct (score_le (distance query x) (distance query y)) eqn:Hxy.
    + constructor; [constructor; assumption |].
      constructor; [exact Hxy |].
      eapply Forall_impl; [exact Hall |].
      intros z Hyz. unfold closer in *. eapply score_le_trans; eassumption.
    + constructor; [exact IH |].
      rewrite insert_by_permutation. constructor; [| exact Hall].
      destruct (score_le_total (distance query x) (distance query y)) as [H | H];
        [congruence | exact H].
Qed.

Lemma order_by_distance_sorted (query : list score) (rows : list Joined) :
  StronglySorted (closer query) (order_by_distance query rows).
Proof.
  induction rows as [| x rows IH]; simpl; [constructor |].
  apply insert_by_sorted. exact IH.
Qed.

Lemma sorted_app_inv {A} (rel : A -> A -> Prop) (l1 l2 : list A) :
  StronglySorted rel (l1 ++ l2) ->
  StronglySorted rel l1 /\ Forall (fun b => Forall (fun a => rel a b) l1) l2.
Proof.
  induction l1 as [| x l1 IH]; simpl; intros Hsorted.
  - split; [constructor |]. apply Forall_forall. intros; constructor.
  - apply StronglySorted_inv in Hsorted as [Hrest Hx].
    destruct (IH Hrest) as [Hl1 Hl2].
    apply Forall_app in Hx as [Hx1 Hx2].
    split; [constructor; assumption |].
    rewrite Forall_forall in Hl2, Hx2 |- *.
    intros b Hb. constructor; auto.
Qed.

Lemma project_sorted (query : list score) (l : list Joined) :
  StronglySorted (closer query) l ->
  StronglySorted at_least_as_similar (map (project query) l).
Proof.
  induction 1 as [| x l Hsorted IH Hall]; simpl; constructor; [exact IH |].
  apply Forall_fmap. eapply Forall_impl; [exact Hall |].
  intros y Hxy. unfold at_least_as_similar. simpl.
  apply one_minus_antitone. exact Hxy.
Qed.


End Ranking.

(** ** The vector index under note changes *)

Section VectorIndex.
Context {R : Runtime}.

(** The row [add_note] stores for a note when the clock shows [now]. *)
Let fresh_row (t : Tables) (i : Z) (e : list score) (now : string) : NoteEmbedding :=
  {| embedding_id := note_embeddings_seq t + 1; embedding_note_id := i;
     embedding := e; embedding_created_at := now |}.

Lemma add_note_run (note : Note) (s : Session) (w : World) :
  add_note note s w =
  match embed_query (length (trace w)) (title note +:+ " " +:+ note_content note) with
  | Ok (x :: v) =>
      (db_commit (on_pending
         (insert_embedding (note_id note) (x :: v)
            (utcnow_isoformat (S (length (trace w))))) s),
       after_calls [EmbedQuery (title note +:+ " " +:+ note_content note); UtcNow] w)
  | _ => (s, after_calls [EmbedQuery (title note +:+ " " +:+ note_content note)] w)
  end.
Proof.
  unfold add_note, _get_embedding, get_embedding, call_embed_query, call_utcnow,
    after_calls.
  run_world.
  destruct (embed_query (length (trace w))
              (title note +:+ " " +:+ note_content note)) as [[| x v] | exn];
    cbn [conversation_manager tables trace]; try reflexivity.
  rewrite length_snoc, <- app_assoc. reflexivity.
Qed.

Lemma vectors_of_insert_embedding (i j : Z) (e : list score) (now : string)
    (t : Tables) :
  vectors_of i (insert_embedding j e now t) =
  vectors_of i t ++ (if decide (j = i) then [fresh_row t j e now] else []).
Proof.
  unfold vectors_of, insert_embedding. simpl. rewrite filter_app, filter_cons.
  simpl. destruct (decide (j = i)); reflexivity.
Qed.

Lemma vectors_of_delete_embeddings (i j : Z) (t : Tables) :
  vectors_of i (delete_embeddings_of j t) =
  if decide (i = j) then [] else vectors_of i t.
Proof.
  unfold vectors_of, delete_embeddings_of. simpl.
  induction (note_embeddings t) as [| ne l IH]; simpl.
  - destruct (decide (i = j)); reflexivity.
  - rewrite !filter_cons.
    destruct (decide (embedding_note_id ne <> j)) as [Hne | Heq].
    + rewrite filter_cons, IH.
      destruct (decide (embedding_note_id ne = i)), (decide (i = j));
        try reflexivity; congruence.
    + rewrite IH. apply dec_stable in Heq.
      destruct (decide (embedding_note_id ne = i)), (decide (i = j));
        try reflexivity; congruence.
Qed.

Lemma vectors_of_shorter_after_filter (i : Z) (P : NoteEmbedding -> Prop)
    `{forall ne, Decision (P ne)} (l : list NoteEmbedding) :
  (length (filter (fun ne => embedding_note_id ne = i) (filter P l))
   <= length (filter (fun ne => embedding_note_id ne = i) l))%nat.
Proof.
  induction l as [| ne l IH]; simpl; [lia |].
  rewrite !filter_cons.
  destruct (decide (P ne)), (decide (embedding_note_id ne = i));
    rewrite ?filter_cons; try destruct (decide (embedding_note_id ne = i));
    simpl; try lia; contradiction.
Qed.

Lemma Forall_filter_keep {A} (P Q : A -> Prop) `{forall x, Decision (Q x)}
    (l : list A) :
  Forall P l -> Forall P (filter Q l).
Proof.
  rewrite !Forall_forall. intros Hall x Hin.
  apply list_elem_of_filter in Hin as [_ Hin]. apply Hall. exact Hin.
Qed.

(** *** Each table operation of the handlers keeps the index consistent *)

Lemma consistent_empty : index_consistent empty_tables.
Proof.
  split; [intros i; simpl; lia |]. split; constructor.
Qed.

Lemma consistent_insert_note (n : Note) (t : Tables) :
  note_id n = notes_seq t + 1 ->
  index_consistent t -> index_consistent (insert_note n t).
Proof.
  intros Hid (Hone & Hvec & Hnotes). split; [exact Hone |].
  unfold insert_note. simpl. split.
  - eapply Forall_impl; [exact Hvec |]. simpl. intros ne Hle. lia.
  - apply Forall_app. split; [| constructor; [lia | constructor]].
    eapply Forall_impl; [exact Hnotes |]. simpl. intros m Hle. lia.
Qed.

Lemma consistent_replace_note (n : Note) (t : Tables) :
  note_id n <= notes_seq t ->
  index_consistent t -> index_consistent (replace_note n t).
Proof.
  intros Hid (Hone & Hvec & Hnotes). split; [exact Hone |].
  split; [exact Hvec |]. unfold replace_note. simpl.
  apply Forall_fmap. eapply Forall_impl; [exact Hnotes |].
  intros m Hle. simpl. destruct (bool_decide (note_id m = note_id n)); assumption.
Qed.

Lemma consistent_delete_embeddings (i : Z) (t : Tables) :
  index_consistent t -> index_consistent (delete_embeddings_of i t).
Proof.
  intros (Hone & Hvec & Hnotes). split; [| split; [| exact Hnotes]].
  - intros j. rewrite vectors_of_delete_embeddings.
    destruct (decide (j = i)); [simpl; lia | apply Hone].
  - unfold delete_embeddings_of. simpl. apply Forall_filter_keep. exact Hvec.
Qed.

Lemma consistent_delete_note_row (i : Z) (t : Tables) :
  index_consistent t -> index_consistent (delete_note_row i t).
Proof.
  intros (Hone & Hvec & Hnotes). split; [| split].
  - intros j. specialize (Hone j). unfold vectors_of, delete_note_row in *. simpl.
    etransitivity; [apply vectors_of_shorter_after_filter | exact Hone].
  - unfold delete_note_row. simpl. apply Forall_filter_keep. exact Hvec.
  - unfold delete_note_row. simpl. apply Forall_filter_keep. exact Hnotes.
Qed.

Lemma consistent_insert_embedding (i : Z) (e : list score) (now : string)
    (t : Tables) :
  vectors_of i t = [] -> i <= notes_seq t ->
  index_consistent t -> index_consistent (insert_embedding i e now t).
Proof.
  intros Hnone Hid (Hone & Hvec & Hnotes). split; [| split; [| exact Hnotes]].
  - intros j. rewrite vectors_of_insert_embedding.
    destruct (decide (i = j)) as [<- | Hne].
    + rewrite Hnone. simpl. lia.
    + rewrite app_nil_r. apply Hone.
  - unfold insert_embedding. simpl. apply Forall_app.
    split; [exact Hvec | constructor; [exact Hid | constructor]].
Qed.

Lemma no_vectors_beyond_sequence (i : Z) (t : Tables) :
  index_consistent t -> notes_seq t < i -> vectors_of i t = [].
Proof.
  intros (_ & Hvec & _) Hlt. unfold vectors_of.
  induction Hvec as [| ne l Hle Hvec IH]; [reflexivity |].
  rewrite filter_cons. destruct (decide (embedding_note_id ne = i)); [lia | exact IH].
Qed.

Lemma find_note_found (i : Z) (t : Tables) (n : Note) :
  find_note i t = Some n -> n ∈ notes t /\ note_id n = i.
Proof.
  unfold find_note. intros Hhead. apply head_Some_elem_of in Hhead.
  apply list_elem_of_filter in Hhead as [Hid Hin]. split; assumption.
Qed.

(** *** What the handlers leave in the tables *)

Lemma create_note_run (new_title new_content : string) (w : World) :
  let n := {| note_id := notes_seq (tables w) + 1;
              title := new_title; note_content := new_content;
              created_at := utcnow_isoformat (length (trace w));
              updated_at := utcnow_isoformat (length (trace w) + 1) |} in
  fst (create_note new_title new_content w) = n
  /\ tables (snd (create_note new_title new_content w)) =
     match embed_query (length (trace w) + 2) (new_title +:+ " " +:+ new_content) with
     | Ok (x :: v) =>
         insert_embedding (note_id n) (x :: v)
           (utcnow_isoformat (length (trace w) + 3)) (insert_note n (tables w))
     | _ => insert_note n (tables w)
     end.
Proof.
  unfold create_note, with_session, call_utcnow. run_world.
  rewrite add_note_run. cbn [title note_content note_id trace].
  rewrite !length_snoc.
  replace (S (length (trace w))) with (length (trace w) + 1)%nat by lia.
  replace (S (length (trace w) + 1)) with (length (trace w) + 2)%nat by lia.
  replace (S (length (trace w) + 2)) with (length (trace w) + 3)%nat by lia.
  destruct (embed_query (length (trace w) + 2) (new_title +:+ " " +:+ new_content))
    as [[| x v] | exn]; split; reflexivity.
Qed.

Lemma delete_note_run (i : Z) (w : World) :
  tables (snd (delete_note i w)) =
  match find_note i (tables w) with
  | Some n => delete_embeddings_of i (delete_note_row (note_id n) (tables w))
  | None => tables w
  end.
Proof.
  unfold delete_note, with_session. run_world.
  cbn [db_open pending]. destruct (find_note i (tables w)); reflexivity.
Qed.

(** The tables after [PUT /api/notes/{note_id}]: either the new vector
    replaces the old ones, or (no embedding) only the note row changes. *)
Lemma update_note_handler_run (i : Z) (new_title new_content : option string)
    (w : World) :
  match find_note i (tables w) with
  | None => tables (snd (update_note_handler i new_title new_content w)) = tables w
  | Some n =>
      exists n' : Note,
        note_id n' = note_id n
        /\ (tables (snd (update_note_handler i new_title new_content w))
            = replace_note n' (tables w)
            \/ exists e now,
                 tables (snd (update_note_handler i new_title new_content w))
                 = insert_embedding (note_id n') e now
                     (delete_embeddings_of (note_id n') (replace_note n' (tables w))))
  end.
Proof.
  unfold update_note_handler, with_session, update_note, call_utcnow. run_world.
  cbn [db_open pending].
  destruct (find_note i (tables w)) as [n |]; [| reflexivity].
  destruct (bool_decide _); cbn [negb]; cbv beta iota zeta;
    match goal with
    | |- context [add_note ?note ?s] => exists note; split; [reflexivity |]
    end;
    rewrite add_note_run; cbn [title note_content note_id];
    match goal with
    | |- context [embed_query ?k ?text] =>
        destruct (embed_query k text) as [[| x v] | exn]
    end; (left; reflexivity) || (right; eexists _, _; reflexivity).
Qed.

(** *** The handlers keep the index consistent *)

Lemma create_note_consistent (new_title new_content : string) (w : World) :
  index_consistent (tables w) ->
  index_consistent (tables (snd (create_note new_title new_content w))).
Proof.
  intros Hcons.
  destruct (create_note_run new_title new_content w) as [_ ->].
  set (n := {| note_id := notes_seq (tables w) + 1; title := new_title |}).
  assert (Hnote : index_consistent (insert_note n (tables w)))
    by (apply consistent_insert_note; [reflexivity | exact Hcons]).
  destruct (embed_query _ _) as [[| x v] | exn]; try exact Hnote.
  apply consistent_insert_embedding; [| simpl; lia | exact Hnote].
  apply (no_vectors_beyond_sequence _ (tables w) Hcons). simpl. lia.
Qed.

Lemma update_note_handler_consistent (i : Z) (new_title new_content : option string)
    (w : World) :
  index_consistent (tables w) ->
  index_consistent (tables (snd (update_note_handler i new_title new_content w))).
Proof.
  intros Hcons.
  pose proof (update_note_handler_run i new_title new_content w) as Hrun.
  destruct (find_note i (tables w)) as [n |] eqn:Hfind; [| rewrite Hrun; exact Hcons].
  destruct Hrun as (n' & Hid & Hrun).
  apply find_note_found in Hfind as [Hin _].
  assert (Hseq : note_id n' <= notes_seq (tables w)).
  { rewrite Hid. destruct Hcons as (_ & _ & Hnotes).
    rewrite Forall_forall in Hnotes. apply Hnotes. exact Hin. }
  assert (Hnote : index_consistent (replace_note n' (tables w)))
    by (apply consistent_replace_note; assumption).
  destruct Hrun as [-> | (e & now & ->)]; [exact Hnote |].
  apply consistent_insert_embedding.
  - rewrite vectors_of_delete_embeddings, decide_True by reflexivity. reflexivity.
  - exact Hseq.
  - apply consistent_delete_embeddings. exact Hnote.
Qed.

Lemma delete_note_consistent (i : Z) (w : World) :
  index_consistent (tables w) -> index_consistent (tables (snd (delete_note i w))).
Proof.
  intros Hcons. rewrite delete_note_run.
  destruct (find_note i (tables w)); [| exact Hcons].
  apply consistent_delete_embeddings, consistent_delete_note_row. exact Hcons.
Qed.

Lemma then_unit_world {A} (c : M A) (w : World) :
  snd ((c ;; mret tt) w) = snd (c w).
Proof. run_world. destruct (c w). reflexivity. Qed.

Lemma handle_consistent (req : NoteRequest) (w : World) :
  index_consistent (tables w) -> index_consistent (tables (snd (handle req w))).
Proof.
  intros Hcons. destruct req; simpl; rewrite then_unit_world.
  - apply create_note_consistent. exact Hcons.
  - apply update_note_handler_consistent. exact Hcons.
  - apply delete_note_consistent. exact Hcons.
Qed.

Lemma handle_all_consistent (reqs : list NoteRequest) (w : World) :
  index_consistent (tables w) ->
  index_consistent (tables (snd (handle_all reqs w))).
Proof.
  revert w. induction reqs as [| req reqs IH]; intros w Hcons; [exact Hcons |].
  simpl. unfold mbind, M_bind.
  pose proof (handle_consistent req w Hcons) as Hstep.
  destruct (handle req w) as [[] w1]. apply IH. exact Hstep.
Qed.


End VectorIndex.

(** ** The properties on the sample runtime *)

Lemma exact_runtime_laws (embed : nat -> string -> Outcome (list Q))
    (chat : nat -> list ChatMessage -> Outcome string) (clock : nat -> string) :
  RuntimeLaws (exact_runtime embed chat clock).
Proof.
  split; simpl.
  - intros a b. rewrite !Qle_bool_iff.
    destruct (Qlt_le_dec a b) as [Hlt | Hle]; [left; lra | right; exact Hle].
  - intros a b c. rewrite !Qle_bool_iff. lra.
  - intros a b. rewrite !Qle_bool_iff. lra.
Defined.

Example format_2f_exact_samples :
  format_2f_exact (87 # 100) = "0.87"
  /\ format_2f_exact (1 # 8) = "0.12"
  /\ format_2f_exact (3 # 8) = "0.38"
  /\ format_2f_exact (- (5 # 4)) = "-1.25"
  /\ format_2f_exact 1 = "1.00".
Proof. repeat split; vm_compute; reflexivity. Qed.

(** C1, the claim as written fails: on a new database, whose vector store is
    empty, a question is still sent to the embedding model. *)
Lemma empty_store_question_is_embedded :
  note_embeddings (tables (@initial_world demo_runtime)) = []
  /\ trace (snd (@ask_question demo_runtime sample_question "u" initial_world))
     = [EmbedQuery sample_question].
Proof. split; vm_compute; reflexivity. Qed.

Lemma empty_store_answer_witness :
  note_embeddings (tables (@initial_world demo_runtime)) = []
  /\ fst (@ask_question demo_runtime sample_question "u" initial_world)
     = Ok {| answer := no_notes_answer; sources := Some [] |}.
Proof.
  split; [reflexivity |].
  apply (@empty_store_answer_without_generation demo_runtime
           sample_question "u" initial_world).
  reflexivity.
Defined.


Lemma failed_generation_witness :
  fst (@ask_question mute_runtime sample_question "u" (sample_world mute_runtime))
  = Ok {| answer := generation_failed_answer; sources := Some [] |}.
Proof.
  eapply (@failed_generation_records_nothing mute_runtime
            sample_question "u" (sample_world mute_runtime)).
  - vm_compute. reflexivity.
  - left. exists "connection refused". reflexivity.
Defined.

Lemma successful_answer_witness :
  fst (@ask_question demo_runtime sample_question "u" (sample_world demo_runtime))
  = Ok {| answer := "Paris.";
          sources := Some ["Note 2: Paris (similarity: 0.80)";
                           "Note 1: Paris (similarity: 0.80)";
                           "Note 3: Berlin (similarity: 0.60)"] |}.
Proof.
  refine (eq_trans
    (proj1 (@successful_answer_records_two_turns demo_runtime
              sample_question "u" (sample_world demo_runtime) _ _ "Paris." _ _ _)) _).
  - vm_compute. reflexivity.
  - reflexivity.
  - discriminate.
  - vm_compute. reflexivity.
Defined.





(** * Further properties of the conversation manager *)

Lemma py_slice_from_nonnegative {A} (start : Z) (l : list A) :
  0 <= start -> py_slice_from start l = drop (Z.to_nat start) l.
Proof.
  intros Hstart. unfold py_slice_from.
  destruct (Z.ltb_spec start 0) as [? | _]; [lia |].
  destruct (Z.le_gt_cases start (Z.of_nat (length l))) as [Hle | Hgt].
  - f_equal. lia.
  - rewrite !drop_ge by lia. reflexivity.
Qed.

(** The order of [str] comparison is transitive. *)
Lemma string_compare_lt_trans (a b c : string) :
  String.compare a b = Lt -> String.compare b c = Lt -> String.compare a c = Lt.
Proof.
  revert b c. induction a as [| x a IH]; intros [| y b] [| z c]; simpl;
    try congruence.
  unfold Ascii.compare.
  destruct (N.compare_spec (N_of_ascii x) (N_of_ascii y)) as [Hxy | Hxy | Hxy];
    destruct (N.compare_spec (N_of_ascii y) (N_of_ascii z)) as [Hyz | Hyz | Hyz];
    try congruence; intros Hab Hbc.
  - rewrite Hxy, Hyz, N.compare_refl. eapply IH; eassumption.
  - rewrite Hxy. apply N.compare_lt_iff in Hyz. rewrite Hyz. reflexivity.
  - rewrite <- Hyz. apply N.compare_lt_iff in Hxy. rewrite Hxy. reflexivity.
  - assert (Hxz : (N_of_ascii x < N_of_ascii z)%N) by lia.
    apply N.compare_lt_iff in Hxz. rewrite Hxz. reflexivity.
Qed.

Lemma string_leb_refl (a : string) : String.leb a a = true.
Proof. destruct (String.leb_total a a); assumption. Qed.

Lemma string_leb_cases (a b : string) :
  String.leb a b = true <-> a = b \/ String.compare a b = Lt.
Proof.
  unfold String.leb. destruct (String.compare a b) eqn:Hcmp.
  - apply String.compare_eq_iff in Hcmp. tauto.
  - tauto.
  - split; [discriminate |]. intros [-> | ?]; [| discriminate].
    pose proof (String.compare_antisym b b) as Hanti. rewrite Hcmp in Hanti.
    discriminate.
Qed.

Lemma string_leb_trans (a b c : string) :
  String.leb a b = true -> String.leb b c = true -> String.leb a c = true.
Proof.
  rewrite !string_leb_cases. intros [-> | Hab] [-> | Hbc]; auto.
  right. eapply string_compare_lt_trans; eassumption.
Qed.

Lemma string_not_ltb_leb (a b : string) :
  String.ltb a b = false -> String.leb b a = true.
Proof.
  unfold String.ltb, String.leb. rewrite (String.compare_antisym a b).
  destruct (String.compare b a); simpl; congruence.
Qed.

Lemma string_ltb_leb (a b : string) :
  String.ltb a b = true -> String.leb a b = true.
Proof.
  unfold String.ltb, String.leb. destruct (String.compare a b); congruence.
Qed.

(** [max] returns one of its arguments, and none of them is greater. *)
Lemma py_max_string_greatest (first : string) (rest : list string) :
  py_max_string first rest ∈ first :: rest
  /\ Forall (fun s => String.leb s (py_max_string first rest) = true)
            (first :: rest).
Proof.
  unfold py_max_string. revert first.
  induction rest as [| s rest IH]; intros first; simpl.
  - split; [apply elem_of_cons; left; reflexivity |].
    repeat constructor. apply string_leb_refl.
  - destruct (String.ltb first s) eqn:Hlt.
    + destruct (IH s) as [Hin Hall]. split; [apply elem_of_cons; right; exact Hin |].
      apply Forall_cons in Hall as [Hs Hrest].
      repeat constructor; try assumption.
      eapply string_leb_trans; [apply string_ltb_leb; exact Hlt | exact Hs].
    + destruct (IH first) as [Hin Hall]. split.
      * apply elem_of_cons in Hin as [Hin | Hin]; apply elem_of_cons;
          [left; exact Hin | right; apply elem_of_cons; right; exact Hin].
      * apply Forall_cons in Hall as [Hfirst Hrest].
        repeat constructor; try assumption.
        eapply string_leb_trans;
          [apply string_not_ltb_leb; exact Hlt | exact Hfirst].
Qed.

Lemma size_list_to_set_le (l : list string) :
  (size (list_to_set l : gset string) <= length l)%nat.
Proof.
  induction l as [| x l IH].
  - rewrite list_to_set_nil, size_empty. simpl. lia.
  - rewrite list_to_set_cons, size_union_alt, size_singleton. simpl.
    assert (size (list_to_set l ∖ {[x]} : gset string)
            <= size (list_to_set l : gset string))%nat
      by (apply subseteq_size; intros y Hy;
          apply elem_of_difference in Hy as [Hy _]; exact Hy).
    lia.
Qed.

Lemma get_conversation_stats_registry (u : string) (mgr : ConversationManager) :
  snd (get_conversation_stats u mgr) = snd (get_user_memory u mgr).
Proof.
  unfold get_conversation_stats. destruct (get_user_memory u mgr) as [um mgr'].
  destruct (conversations um); reflexivity.
Qed.

Lemma get_conversation_history_registry (u c : string) (limit : Z)
    (mgr : ConversationManager) :
  snd (get_conversation_history u c limit mgr) = snd (get_user_memory u mgr).
Proof.
  unfold get_conversation_history. destruct (get_user_memory u mgr). reflexivity.
Qed.

Lemma get_user_context_registry (u : string) (mgr : ConversationManager) :
  snd (get_user_context u mgr) = snd (get_user_memory u mgr).
Proof. unfold get_user_context. destruct (get_user_memory u mgr). reflexivity. Qed.

(** What the stats and the context read depend on: the user's entry, or the
    entry of a new user when there is none. *)
Lemma get_conversation_stats_value (u : string) (mgr : ConversationManager) :
  fst (get_conversation_stats u mgr)
  = fst (get_conversation_stats u {[ u := default new_user_memory (mgr !! u) ]}).
Proof.
  unfold get_conversation_stats, get_user_memory.
  rewrite lookup_singleton_eq. destruct (mgr !! u) as [um |]; simpl.
  - destruct (conversations um); reflexivity.
  - reflexivity.
Qed.

Lemma get_user_context_value (u : string) (mgr : ConversationManager) :
  fst (get_user_context u mgr) = context (default new_user_memory (mgr !! u)).
Proof.
  unfold get_user_context, get_user_memory. destruct (mgr !! u); reflexivity.
Qed.

Lemma get_conversation_history_value (u c : string) (limit : Z)
    (mgr : ConversationManager) :
  fst (get_conversation_history u c limit mgr)
  = py_slice_from (- limit)
      (filter (fun conv => id conv = c) (full_log u mgr)).
Proof.
  unfold get_conversation_history, full_log.
  destruct (get_user_memory u mgr). reflexivity.
Qed.

Lemma record_all_lookup_other (ts : list Turn) (u : string)
    (mgr : ConversationManager) :
  Forall (fun t => turn_user t <> u) ts ->
  record_all ts mgr !! u = mgr !! u.
Proof.
  revert mgr. induction ts as [| t ts IH]; intros mgr Hall; [reflexivity |].
  apply Forall_cons in Hall as [Hne Hall].
  rewrite record_all_cons, IH by exact Hall.
  unfold record_turn. apply add_message_lookup_other. exact Hne.
Qed.

(** X1: a run of [add_message] calls in which a user has no turn leaves that
    user's entry of the registry, hence the user's log, recent context and
    context, as it was. *)
Theorem record_all_leaves_other_users (ts : list Turn) (u : string)
    (mgr : ConversationManager) :
  Forall (fun t => turn_user t <> u) ts ->
  record_all ts mgr !! u = mgr !! u
  /\ full_log u (record_all ts mgr) = full_log u mgr
  /\ recent_window u (record_all ts mgr) = recent_window u mgr
  /\ fst (get_user_context u (record_all ts mgr)) = fst (get_user_context u mgr).
Proof.
  intros Hall. pose proof (record_all_lookup_other ts u mgr Hall) as Hsame.
  rewrite !full_log_lookup, !recent_window_lookup, !get_user_context_value, Hsame.
  repeat split.
Qed.

(** X2: the four reads of the manager ([get_conversation_history],
    [get_recent_context], [get_conversation_stats], [get_user_context]) leave
    the registry as [get_user_memory] does, and after that every read of
    every user returns what it returned before. *)
Theorem reads_show_nothing_new (u u' c : string) (limit : Z)
    (mgr : ConversationManager) :
  let after := snd (get_user_memory u mgr) in
  snd (get_conversation_history u c limit mgr) = after
  /\ snd (get_recent_context u mgr) = after
  /\ snd (get_conversation_stats u mgr) = after
  /\ snd (get_user_context u mgr) = after
  /\ fst (get_conversation_history u' c limit after)
     = fst (get_conversation_history u' c limit mgr)
  /\ fst (get_recent_context u' after) = fst (get_recent_context u' mgr)
  /\ fst (get_conversation_stats u' after) = fst (get_conversation_stats u' mgr)
  /\ fst (get_user_context u' after) = fst (get_user_context u' mgr).
Proof.
  intros after. unfold after.
  pose proof (get_user_memory_lookup u u' mgr) as Hsame.
  repeat split.
  - apply get_conversation_history_registry.
  - apply get_recent_context_registry.
  - apply get_conversation_stats_registry.
  - apply get_user_context_registry.
  - rewrite !get_conversation_history_value, !full_log_lookup, Hsame. reflexivity.
  - change (recent_window u' (snd (get_user_memory u mgr)) = recent_window u' mgr).
    rewrite !recent_window_lookup, Hsame. reflexivity.
  - rewrite get_conversation_stats_value, Hsame, <- get_conversation_stats_value.
    reflexivity.
  - rewrite !get_user_context_value, Hsame. reflexivity.
Qed.

(** X3: for a positive [limit], [get_conversation_history] returns the last
    [limit] turns of the conversation (all of them when there are fewer), in
    the order of the log, and only turns of that conversation. *)
Theorem history_returns_latest_of_conversation (u c : string) (limit : Z)
    (mgr : ConversationManager) :
  0 < limit ->
  let all := filter (fun conv => id conv = c) (full_log u mgr) in
  let history := fst (get_conversation_history u c limit mgr) in
  (exists older, all = older ++ history)
  /\ length history = Nat.min (Z.to_nat limit) (length all)
  /\ Forall (fun conv => id conv = c) history.
Proof.
  intros Hpos all history.
  assert (Hhistory : history = last_n (Z.to_nat limit) all)
    by (apply history_positive_limit; exact Hpos).
  rewrite Hhistory. split; [apply last_n_suffix |].
  split; [apply last_n_length |].
  apply Forall_forall. intros conv Hin.
  assert (Hall : conv ∈ all).
  { destruct (last_n_suffix (Z.to_nat limit) all) as [older ->].
    apply elem_of_app. right. exact Hin. }
  unfold all in Hall. apply list_elem_of_filter in Hall as [Hid _]. exact Hid.
Qed.

(** X4: a negative [limit] makes the slice [[-limit:]] start at a positive
    index: the first [-limit] turns of the conversation are dropped and all the
    later ones returned. *)
Theorem history_with_negative_limit_drops_oldest (u c : string) (limit : Z)
    (mgr : ConversationManager) :
  limit < 0 ->
  fst (get_conversation_history u c limit mgr)
  = drop (Z.to_nat (- limit)) (filter (fun conv => id conv = c) (full_log u mgr)).
Proof.
  intros Hneg. rewrite get_conversation_history_value.
  apply py_slice_from_nonnegative. lia.
Qed.

Lemma stats_total_is_log_length (u : string) (mgr : ConversationManager) :
  total_messages (fst (get_conversation_stats u mgr))
  = Z.of_nat (length (full_log u mgr)).
Proof.
  unfold full_log, get_conversation_stats.
  destruct (get_user_memory u mgr) as [um mgr']. cbn [fst].
  destruct (conversations um); reflexivity.
Qed.

(** X5: [get_conversation_stats] counts the turns of the user's log and the
    distinct conversation ids among them (never more ids than turns, and at
    least one id when there is a turn); [last_activity] is [None] exactly for
    an empty log, and otherwise a timestamp of the log that no timestamp of the
    log exceeds in string order. *)
Theorem stats_describe_the_log (u : string) (mgr : ConversationManager) :
  let stats := fst (get_conversation_stats u mgr) in
  let log := full_log u mgr in
  total_messages stats = Z.of_nat (length log)
  /\ stats_conversations stats
     = Z.of_nat (size (list_to_set (map id log) : gset string))
  /\ 0 <= stats_conversations stats <= total_messages stats
  /\ (log <> [] -> 1 <= stats_conversations stats)
  /\ (last_activity stats = None <-> log = [])
  /\ (forall latest, last_activity stats = Some latest ->
        latest ∈ map timestamp log
        /\ Forall (fun t => String.leb t latest = true) (map timestamp log)).
Proof.
  intros stats log. unfold stats, log, full_log, get_conversation_stats.
  destruct (get_user_memory u mgr) as [um mgr']. cbn [fst].
  destruct (conversations um) as [| first rest] eqn:Hlog; cbn [fst].
  - cbn -[Z.of_nat list_to_set]. rewrite list_to_set_nil, size_empty.
    split; [reflexivity |]. split; [reflexivity |]. split; [lia |].
    split; [congruence |]. split; [split; reflexivity |].
    intros latest Hlatest. discriminate.
  - cbn [total_messages stats_conversations last_activity].
    pose proof (size_list_to_set_le (map id (first :: rest))) as Hle.
    rewrite length_map in Hle.
    assert (Hone : (1 <= size (list_to_set (map id (first :: rest)) : gset string))%nat).
    { rewrite fmap_cons, list_to_set_cons, size_union_alt, size_singleton. lia. }
    split; [reflexivity |]. split; [reflexivity |]. split; [lia |].
    split; [intros _; lia |]. split; [split; congruence |].
    intros latest [= <-].
    apply (py_max_string_greatest (timestamp first) (map timestamp rest)).
Qed.

(** X6: after any run of [add_message] calls on a new manager the stats of a
    user count the turns recorded for that user, up to the cap of 100. *)
Theorem stats_count_recorded_turns (ts : list Turn) (u : string) :
  total_messages (fst (get_conversation_stats u (record_all ts ∅)))
  = Z.of_nat (Nat.min 100 (length (filter (fun t => turn_user t = u) ts))).
Proof.
  rewrite stats_total_is_log_length.
  rewrite full_log_record_all by (rewrite full_log_empty; simpl; lia).
  rewrite full_log_empty, app_nil_l, last_n_length, length_map. reflexivity.
Qed.

(** X7: [clear_user_memory] makes the user read like one never seen (empty
    log, empty recent context, empty context, zero stats) and changes no other
    user's entry; for a user without an entry it changes nothing. *)
Theorem clear_forgets_one_user (u : string) (mgr : ConversationManager) :
  let cleared := clear_user_memory u mgr in
  full_log u cleared = []
  /\ recent_window u cleared = []
  /\ fst (get_user_context u cleared) = ∅
  /\ fst (get_conversation_stats u cleared)
     = {| total_messages := 0; stats_conversations := 0; last_activity := None |}
  /\ (forall u', u' <> u -> cleared !! u' = mgr !! u')
  /\ (mgr !! u = None -> cleared = mgr).
Proof.
  intros cleared. unfold cleared, clear_user_memory.
  assert (Hgone : delete u mgr !! u = None) by apply lookup_delete_eq.
  split; [rewrite full_log_lookup, Hgone; reflexivity |].
  split; [rewrite recent_window_lookup, Hgone; reflexivity |].
  split; [rewrite get_user_context_value, Hgone; reflexivity |].
  split.
  { rewrite get_conversation_stats_value, Hgone.
    unfold get_conversation_stats, get_user_memory.
    rewrite lookup_singleton_eq. reflexivity. }
  split.
  - intros u' Hne. apply lookup_delete_ne. congruence.
  - intros Hnone. apply delete_id. exact Hnone.
Qed.

(** X8: after [update_user_context] the context of the user has the new value
    for each key of the update and the old value for every other key; the
    user's log and recent context, and the entries of other users, are as
    before. *)
Theorem context_update_then_read (u key : string) (new_context : gmap string string)
    (mgr : ConversationManager) :
  let updated := update_user_context u new_context mgr in
  fst (get_user_context u updated) !! key
    = match new_context !! key with
      | Some value => Some value
      | None => fst (get_user_context u mgr) !! key
      end
  /\ full_log u updated = full_log u mgr
  /\ recent_window u updated = recent_window u mgr
  /\ (forall u', u' <> u -> updated !! u' = mgr !! u').
Proof.
  intros updated.
  assert (Hentry : updated !! u
    = Some {| summary_memory := summary_memory (default new_user_memory (mgr !! u));
              buffer_memory := buffer_memory (default new_user_memory (mgr !! u));
              conversations := conversations (default new_user_memory (mgr !! u));
              context := new_context ∪ context (default new_user_memory (mgr !! u)) |}).
  { unfold updated, update_user_context, get_user_memory.
    destruct (mgr !! u); cbv beta iota zeta; rewrite lookup_insert_eq; reflexivity. }
  split; [| split; [| split]].
  - rewrite !get_user_context_value, Hentry.
    change (context (default new_user_memory (Some ?x))) with (context x).
    cbn [context]. rewrite lookup_union.
    destruct (new_context !! key), (context (default new_user_memory (mgr !! u)) !! key);
      reflexivity.
  - rewrite !full_log_lookup, Hentry. reflexivity.
  - rewrite !recent_window_lookup, Hentry. reflexivity.
  - intros u' Hne. unfold updated, update_user_context, get_user_memory.
    destruct (mgr !! u); cbv beta iota zeta;
      rewrite !lookup_insert_ne by congruence; reflexivity.
Qed.

(** X9: [export_user_data] returns the user id it was asked for, the user's
    whole log, the user's context and the stats that
    [get_conversation_stats] computes, so the exported total is the length of
    the exported log; the registry is left as by any read. *)
Theorem export_agrees_with_reads (now u : string) (mgr : ConversationManager) :
  let exported := fst (export_user_data now u mgr) in
  export_user_id exported = u
  /\ export_conversations exported = full_log u mgr
  /\ export_context exported = fst (get_user_context u mgr)
  /\ export_stats exported = fst (get_conversation_stats u mgr)
  /\ total_messages (export_stats exported)
     = Z.of_nat (length (export_conversations exported))
  /\ exported_at exported = now
  /\ snd (export_user_data now u mgr) = snd (get_user_memory u mgr).
Proof.
  intros exported.
  assert (Hstats : fst (get_conversation_stats u (snd (get_user_memory u mgr)))
                   = fst (get_conversation_stats u mgr)).
  { rewrite get_conversation_stats_value, get_user_memory_lookup,
      <- get_conversation_stats_value. reflexivity. }
  assert (Hregistry : snd (get_conversation_stats u (snd (get_user_memory u mgr)))
                      = snd (get_user_memory u mgr)).
  { rewrite get_conversation_stats_registry. apply get_user_memory_present.
    unfold get_user_memory. destruct (mgr !! u) as [um |] eqn:Hu; cbn [snd].
    - rewrite Hu. eauto.
    - rewrite lookup_insert_eq. eauto. }
  pose proof (stats_total_is_log_length u mgr) as Htotal.
  unfold exported, export_user_data, full_log, get_user_context in *.
  destruct (get_user_memory u mgr) as [um mgr1]. cbn [fst snd] in *.
  destruct (get_conversation_stats u mgr1) as [stats mgr2]. cbn [fst snd] in *.
  subst stats mgr2. cbn.
  repeat split. exact Htotal.
Qed.

(** * Further properties of the question-answering pipeline *)

Section PipelineMore.
Context {R : Runtime}.

Lemma get_user_memory_lookup_other (u u' : string) (mgr : ConversationManager) :
  u <> u' -> snd (get_user_memory u mgr) !! u' = mgr !! u'.
Proof.
  intros Hne. unfold get_user_memory. destruct (mgr !! u); cbn [snd];
    [reflexivity | apply lookup_insert_ne; exact Hne].
Qed.

Lemma retrieved_at_most_three (question : string) (w : World)
    (notes : list RelevantNote) :
  retrieved question w = Ok notes -> (length notes <= 3)%nat.
Proof.
  unfold retrieved. rewrite get_relevant_notes_run. cbn [fst].
  destruct (embed_query (length (trace w)) question) as [[| x v] | exn];
    try (intros [= <-]; simpl; lia).
  unfold execute_query. cbn. intros [= <-].
  rewrite length_map, length_take. lia.
Qed.

(** The three ways a question can end. *)
Lemma ask_question_cases (question user_id : string) (w : World) :
  ask_question question user_id w
  = (Ok {| answer := no_notes_answer; sources := Some [] |},
     after_calls [EmbedQuery question] w)
  \/ (exists notes,
        retrieved question w = Ok notes /\ notes <> []
        /\ ask_question question user_id w
           = (Ok {| answer := generation_failed_answer; sources := Some [] |},
              {| conversation_manager :=
                   snd (get_user_memory user_id (conversation_manager w));
                 tables := tables w;
                 trace := trace w ++
                   [EmbedQuery question;
                    OllamaChat (build_messages question notes
                      (recent_window user_id (conversation_manager w)))] |}))
  \/ (exists notes text,
        retrieved question w = Ok notes /\ notes <> []
        /\ generated question user_id notes w = Ok text /\ text <> ""
        /\ ask_question question user_id w
           = (Ok {| answer := text; sources := Some (map source_line notes) |},
              {| conversation_manager :=
                   record_all
                     [ {| turn_user := user_id; turn_text := question;
                          turn_is_user := true; turn_conversation := "default";
                          turn_now := utcnow_isoformat (length (trace w) + 2) |};
                       {| turn_user := user_id; turn_text := text;
                          turn_is_user := false; turn_conversation := "default";
                          turn_now := utcnow_isoformat (length (trace w) + 3) |} ]
                     (conversation_manager w);
                 tables := tables w;
                 trace := trace w ++
                   [EmbedQuery question;
                    OllamaChat (build_messages question notes
                      (recent_window user_id (conversation_manager w)));
                    UtcNow; UtcNow] |})).
Proof.
  destruct (retrieved_never_raises question w) as [[| n ns] Hret].
  - left. apply ask_question_nothing_retrieved. exact Hret.
  - right.
    rewrite (ask_question_notes_retrieved question user_id w n ns Hret). cbv zeta.
    rewrite get_recent_context_registry.
    destruct (generated question user_id (n :: ns) w) as [text | exn] eqn:Hgen.
    + destruct text as [| a text].
      * left. exists (n :: ns). repeat split; congruence.
      * right. exists (n :: ns), (String a text). cbn [str_truthy].
        rewrite add_message_after_lookup.
        repeat split; congruence.
    + left. exists (n :: ns). repeat split; congruence.
Qed.

(** X10: the message list for the chat model is the system message, then the
    last four messages of the recent context (all of them when there are
    fewer) as user or assistant messages in their order, then the question
    message: between 2 and 6 messages. *)
Theorem prompt_is_system_recent_question (question : string)
    (relevant_notes : list RelevantNote) (recent_context : list BaseMessage) :
  build_messages question relevant_notes recent_context
  = system_message
    :: map chat_of_message (last_n 4 recent_context)
    ++ [question_message question
          (join (nl +:+ nl) (map context_part relevant_notes))]
  /\ length (build_messages question relevant_notes recent_context)
     = (2 + Nat.min 4 (length recent_context))%nat
  /\ Forall (fun m => role m = "user" \/ role m = "assistant")
       (map chat_of_message (last_n 4 recent_context)).
Proof.
  assert (Hslice : py_slice_from (-4) recent_context = last_n 4 recent_context).
  { change (-4) with (- (4)). rewrite py_slice_from_negative by lia. reflexivity. }
  unfold build_messages. rewrite Hslice. split; [reflexivity |]. split.
  - simpl. rewrite length_app, length_map, last_n_length. simpl. lia.
  - apply Forall_fmap, Forall_forall. intros msg _. simpl.
    destruct msg; [left | right]; reflexivity.
Qed.

(** X11: a question costs exactly one embedding call, made first, and at most
    one chat call; the clock is read (twice) only after the chat call, that
    is, only when two turns are recorded. *)
Theorem ask_question_outside_calls (question user_id : string) (w : World) :
  exists rest,
    trace (snd (ask_question question user_id w))
    = trace w ++ EmbedQuery question :: rest
    /\ (rest = []
        \/ exists messages,
             rest = [OllamaChat messages]
             \/ rest = [OllamaChat messages; UtcNow; UtcNow]).
Proof.
  destruct (ask_question_cases question user_id w)
    as [-> | [(notes & _ & _ & ->) | (notes & text & _ & _ & _ & _ & ->)]];
    cbn [snd trace after_calls]; eexists; (split; [reflexivity |]).
  - left. reflexivity.
  - right. eexists. left. reflexivity.
  - right. eexists. right. reflexivity.
Qed.

(** X12: [ask_question] never changes the tables, and never changes the
    registry entry of a user other than the asking one. *)
Theorem ask_question_leaves_notes_and_other_users
    (question user_id : string) (w : World) :
  tables (snd (ask_question question user_id w)) = tables w
  /\ forall u, u <> user_id ->
       conversation_manager (snd (ask_question question user_id w)) !! u
       = conversation_manager w !! u.
Proof.
  destruct (ask_question_cases question user_id w)
    as [-> | [(notes & _ & _ & ->) | (notes & text & _ & _ & _ & _ & ->)]];
    cbn [snd tables conversation_manager after_calls];
    (split; [reflexivity |]); intros u Hne.
  - reflexivity.
  - apply get_user_memory_lookup_other. congruence.
  - apply record_all_lookup_other. repeat constructor; simpl; congruence.
Qed.


(** X14: after a question that was answered, the last four messages of the
    user's recent context are that one exchange (the question, an empty AI
    message, an empty human message, the answer), so the next prompt of the
    user carries exactly these four between the system message and the new
    question. *)
Theorem next_prompt_carries_last_exchange
    (question user_id : string) (w : World)
    (n : RelevantNote) (ns : list RelevantNote) (text : string)
    (next_question : string) (next_notes : list RelevantNote) :
  retrieved question w = Ok (n :: ns) ->
  generated question user_id (n :: ns) w = Ok text ->
  text <> "" ->
  build_messages next_question next_notes
    (recent_window user_id
       (conversation_manager (snd (ask_question question user_id w))))
  = [ system_message;
      {| role := "user"; chat_content := question |};
      {| role := "assistant"; chat_content := "" |};
      {| role := "user"; chat_content := "" |};
      {| role := "assistant"; chat_content := text |};
      question_message next_question
        (join (nl +:+ nl) (map context_part next_notes)) ].
Proof.
  intros Hret Hgen Htext.
  rewrite (ask_question_notes_retrieved question user_id w n ns Hret).
  cbv zeta. rewrite Hgen.
  destruct text as [| a text]; [contradiction |].
  cbn [str_truthy snd conversation_manager].
  rewrite get_recent_context_registry, add_message_after_lookup.
  set (asked := {| turn_user := user_id; turn_text := question;
                   turn_is_user := true; turn_conversation := "default";
                   turn_now := utcnow_isoformat (length (trace w) + 2) |}).
  set (answered := {| turn_user := user_id; turn_text := String a text;
                      turn_is_user := false; turn_conversation := "default";
                      turn_now := utcnow_isoformat (length (trace w) + 3) |}).
  change (add_message (utcnow_isoformat (length (trace w) + 3)) user_id
            (String a text) false "default"
            (add_message (utcnow_isoformat (length (trace w) + 2)) user_id
               question true "default" (conversation_manager w)))
    with (record_turn answered (record_turn asked (conversation_manager w))).
  rewrite !recent_window_record_turn. simpl turn_user.
  rewrite !decide_True by reflexivity.
  rewrite <- app_assoc.
  unfold build_messages. change (-4) with (- (4)).
  rewrite py_slice_from_negative by lia.
  unfold last_n. rewrite length_app.
  change (length (messages_of asked ++ messages_of answered)) with 4%nat.
  replace (length (recent_window user_id (conversation_manager w)) + 4
           - Z.to_nat 4)%nat
    with (length (recent_window user_id (conversation_manager w))) by lia.
  rewrite drop_app_length. reflexivity.
Qed.


End PipelineMore.

(** * Further properties of the notes and their vectors *)

Section IndexMore.
Context {R : Runtime}.

Lemma elem_of_join_rows (row : Joined) (t : Tables) :
  row ∈ join_rows t <->
  snd row ∈ note_embeddings t /\ fst row ∈ notes t
  /\ note_id (fst row) = embedding_note_id (snd row).
Proof.
  unfold join_rows. rewrite list_elem_of_bind. split.
  - intros (ne & Hrow & Hne).
    apply list_elem_of_bind in Hrow as (n & Hrow & Hn).
    apply list_elem_of_singleton in Hrow as ->.
    apply list_elem_of_filter in Hn as [Hid Hn]. auto.
  - intros (Hne & Hn & Hid). exists (snd row). split; [| exact Hne].
    apply list_elem_of_bind. exists (fst row). split.
    + destruct row. apply list_elem_of_singleton. reflexivity.
    + apply list_elem_of_filter. auto.
Qed.

Lemma elem_of_take {A} (x : A) (n : nat) (l : list A) : x ∈ take n l -> x ∈ l.
Proof.
  intros Hin. rewrite <- (take_drop n l). apply elem_of_app. left. exact Hin.
Qed.

(** X16: every row the search returns is a note of the table joined with one
    of that note's vectors, with the note's id, title and content and the
    similarity of that vector to the query; a note without a vector is never
    returned. *)
Theorem search_rows_are_notes_with_vectors
    (query : list score) (top_k : Z) (t : Tables) (rows : list RelevantNote) :
  execute_query query top_k t = Ok rows ->
  Forall (fun r =>
    exists n ne,
      n ∈ notes t /\ ne ∈ note_embeddings t
      /\ note_id n = embedding_note_id ne
      /\ rn_id r = note_id n /\ rn_title r = title n
      /\ rn_content r = note_content n
      /\ rn_similarity r = one_minus (cosine_distance (embedding ne) query)
      /\ vectors_of (rn_id r) t <> []) rows.
Proof.
  unfold execute_query. destruct (top_k <? 0); [discriminate |].
  intros [= <-]. apply Forall_fmap, Forall_forall. intros [n ne] Hin.
  apply elem_of_take in Hin.
  rewrite (order_by_distance_permutation query (join_rows t)) in Hin.
  apply elem_of_join_rows in Hin as (Hne & Hn & Hid). cbn [fst snd] in *.
  exists n, ne. repeat split; try assumption.
  cbn. intros Hnone.
  assert (Hvec : ne ∈ vectors_of (note_id n) t)
    by (apply list_elem_of_filter; split; [symmetry; exact Hid | exact Hne]).
  rewrite Hnone in Hvec. apply elem_of_nil in Hvec. exact Hvec.
Qed.

(** *** The keys of the two tables under the handlers *)

Lemma replace_note_ids (n : Note) (t : Tables) :
  map note_id (notes (replace_note n t)) = map note_id (notes t).
Proof.
  unfold replace_note. cbn [notes]. induction (notes t) as [| m l IH];
    [reflexivity |].
  cbn [map]. rewrite IH. f_equal.
  destruct (bool_decide_reflect (note_id m = note_id n)) as [Heq | _];
    [symmetry; exact Heq | reflexivity].
Qed.

Lemma filtered_ids_sublist (P : Note -> Prop) `{forall m, Decision (P m)}
    (l : list Note) :
  map note_id (filter P l) `sublist_of` map note_id l.
Proof.
  induction l as [| m l IH]; [constructor |].
  rewrite filter_cons. destruct (decide (P m)); cbn [map];
    [apply sublist_skip | apply sublist_cons]; exact IH.
Qed.

Lemma sound_empty : index_sound empty_tables.
Proof. split; constructor. Qed.

Lemma sound_insert_note (n : Note) (t : Tables) :
  note_id n = notes_seq t + 1 ->
  index_consistent t -> index_sound t -> index_sound (insert_note n t).
Proof.
  intros Hid (_ & _ & Hseq) (Hnodup & Hlive). unfold index_sound, insert_note.
  cbn [notes note_embeddings]. rewrite map_app. split.
  - apply NoDup_app. split; [exact Hnodup |]. split; [| repeat constructor; set_solver].
    intros i Hold Hnew. apply list_elem_of_singleton in Hnew. subst i.
    apply list_elem_of_fmap in Hold as (m & Hm & Hin).
    rewrite Forall_forall in Hseq. specialize (Hseq m Hin). lia.
  - eapply Forall_impl; [exact Hlive |]. intros ne Hin.
    apply elem_of_app. left. exact Hin.
Qed.

Lemma sound_replace_note (n : Note) (t : Tables) :
  index_sound t -> index_sound (replace_note n t).
Proof.
  intros (Hnodup & Hlive). unfold index_sound. rewrite replace_note_ids.
  split; assumption.
Qed.

Lemma sound_delete_embeddings (i : Z) (t : Tables) :
  index_sound t -> index_sound (delete_embeddings_of i t).
Proof.
  intros (Hnodup & Hlive). split; [exact Hnodup |].
  unfold delete_embeddings_of. cbn [notes note_embeddings].
  apply Forall_filter_keep. exact Hlive.
Qed.

Lemma sound_delete_note_row (i : Z) (t : Tables) :
  index_sound t -> index_sound (delete_note_row i t).
Proof.
  intros (Hnodup & Hlive). unfold index_sound, delete_note_row.
  cbn [notes note_embeddings]. split.
  - eapply sublist_NoDup; [exact Hnodup | apply filtered_ids_sublist].
  - apply Forall_forall. intros ne Hin.
    apply list_elem_of_filter in Hin as [Hne Hin].
    rewrite Forall_forall in Hlive. specialize (Hlive ne Hin).
    apply list_elem_of_fmap in Hlive as (m & Hm & Hmin).
    apply list_elem_of_fmap. exists m. split; [exact Hm |].
    apply list_elem_of_filter. split; [congruence | exact Hmin].
Qed.

Lemma sound_insert_embedding (i : Z) (e : list score) (now : string) (t : Tables) :
  i ∈ map note_id (notes t) ->
  index_sound t -> index_sound (insert_embedding i e now t).
Proof.
  intros Hlive_i (Hnodup & Hlive). split; [exact Hnodup |].
  unfold insert_embedding. cbn [notes note_embeddings].
  apply Forall_app. split; [exact Hlive |]. repeat constructor. exact Hlive_i.
Qed.

Lemma create_note_sound (new_title new_content : string) (w : World) :
  index_consistent (tables w) -> index_sound (tables w) ->
  index_sound (tables (snd (create_note new_title new_content w))).
Proof.
  intros Hcons Hsound.
  destruct (create_note_run new_title new_content w) as [_ ->].
  set (n := {| note_id := notes_seq (tables w) + 1; title := new_title |}).
  assert (Hnote : index_sound (insert_note n (tables w)))
    by (apply sound_insert_note; [reflexivity | assumption | assumption]).
  destruct (embed_query (length (trace w) + 2) (new_title +:+ " " +:+ new_content))
    as [[| x v] | exn]; try exact Hnote.
  apply sound_insert_embedding; [| exact Hnote].
  cbn [insert_note notes]. rewrite map_app. apply elem_of_app. right.
  apply list_elem_of_singleton. reflexivity.
Qed.

Lemma update_note_handler_sound (i : Z) (new_title new_content : option string)
    (w : World) :
  index_sound (tables w) ->
  index_sound (tables (snd (update_note_handler i new_title new_content w))).
Proof.
  intros Hsound.
  pose proof (update_note_handler_run i new_title new_content w) as Hrun.
  destruct (find_note i (tables w)) as [n |] eqn:Hfind; [| rewrite Hrun; exact Hsound].
  destruct Hrun as (n' & Hid & Hrun).
  apply find_note_found in Hfind as [Hin _].
  assert (Hnote : index_sound (replace_note n' (tables w)))
    by (apply sound_replace_note; exact Hsound).
  destruct Hrun as [-> | (e & now & ->)]; [exact Hnote |].
  apply sound_insert_embedding; [| apply sound_delete_embeddings; exact Hnote].
  change (notes (delete_embeddings_of (note_id n') (replace_note n' (tables w))))
    with (notes (replace_note n' (tables w))).
  rewrite replace_note_ids, Hid. apply list_elem_of_fmap. exists n. auto.
Qed.

Lemma delete_note_sound (i : Z) (w : World) :
  index_sound (tables w) -> index_sound (tables (snd (delete_note i w))).
Proof.
  intros Hsound. rewrite delete_note_run.
  destruct (find_note i (tables w)); [| exact Hsound].
  apply sound_delete_embeddings, sound_delete_note_row. exact Hsound.
Qed.

Lemma handle_all_keeps_keys (reqs : list NoteRequest) (w : World) :
  index_consistent (tables w) -> index_sound (tables w) ->
  index_consistent (tables (snd (handle_all reqs w)))
  /\ index_sound (tables (snd (handle_all reqs w))).
Proof.
  revert w. induction reqs as [| req reqs IH]; intros w Hcons Hsound;
    [split; assumption |].
  simpl. unfold mbind, M_bind.
  pose proof (handle_consistent req w Hcons) as Hstep.
  assert (Hstep' : index_sound (tables (snd (handle req w)))).
  { destruct req; simpl; rewrite then_unit_world.
    - apply create_note_sound; assumption.
    - apply update_note_handler_sound; assumption.
    - apply delete_note_sound; assumption. }
  destruct (handle req w) as [[] w1]. apply IH; assumption.
Qed.

Lemma reached_keeps_keys (reqs : list NoteRequest) :
  index_consistent (tables (snd (handle_all reqs initial_world)))
  /\ index_sound (tables (snd (handle_all reqs initial_world))).
Proof. apply handle_all_keeps_keys; [apply consistent_empty | apply sound_empty]. Qed.

Lemma one_vector_each_NoDup (l : list NoteEmbedding) :
  (forall i, (length (filter (fun ne => embedding_note_id ne = i) l) <= 1)%nat) ->
  NoDup (map embedding_note_id l).
Proof.
  induction l as [| ne l IH]; intros Hone; [constructor |].
  cbn [map]. constructor.
  - intros Hin. apply list_elem_of_fmap in Hin as (ne' & Heq & Hin).
    specialize (Hone (embedding_note_id ne)).
    rewrite filter_cons, decide_True in Hone by reflexivity.
    assert (Hne' : ne' ∈ filter (fun x => embedding_note_id x = embedding_note_id ne) l)
      by (apply list_elem_of_filter; split; [symmetry; exact Heq | exact Hin]).
    destruct (filter (fun x => embedding_note_id x = embedding_note_id ne) l);
      [apply elem_of_nil in Hne'; exact Hne' | simpl in Hone; lia].
  - apply IH. intros i. specialize (Hone i). rewrite filter_cons in Hone.
    destruct (decide (embedding_note_id ne = i)); simpl in Hone; lia.
Qed.

Lemma no_note_with_id (i : Z) (l : list Note) :
  i ∉ map note_id l -> filter (fun m => note_id m = i) l = [].
Proof.
  induction l as [| m l IH]; intros Hnot; [reflexivity |].
  rewrite filter_cons. cbn [map] in Hnot. apply not_elem_of_cons in Hnot as [Hne Hnot].
  destruct (decide (note_id m = i)); [congruence | apply IH; exact Hnot].
Qed.

Lemma one_note_with_id (i : Z) (l : list Note) :
  NoDup (map note_id l) -> i ∈ map note_id l ->
  exists n, filter (fun m => note_id m = i) l = [n] /\ note_id n = i.
Proof.
  induction l as [| m l IH]; intros Hnodup Hin; [apply elem_of_nil in Hin; contradiction |].
  cbn [map] in *. apply NoDup_cons in Hnodup as [Hfresh Hnodup].
  rewrite filter_cons. destruct (decide (note_id m = i)) as [Heq | Hne].
  - exists m. rewrite no_note_with_id; [split; [reflexivity | exact Heq] | congruence].
  - apply elem_of_cons in Hin as [Hin | Hin]; [congruence |].
    apply IH; assumption.
Qed.

Lemma joined_ids (all_notes : list Note) (vectors : list NoteEmbedding) :
  NoDup (map note_id all_notes) ->
  Forall (fun ne => embedding_note_id ne ∈ map note_id all_notes) vectors ->
  map (fun row : Joined => note_id (fst row))
      (vectors ≫= fun ne =>
         filter (fun m => note_id m = embedding_note_id ne) all_notes
         ≫= fun n => [(n, ne)])
  = map embedding_note_id vectors.
Proof.
  intros Hnodup Hlive.
  induction Hlive as [| ne nes Hne Hlive IH]; [reflexivity |].
  rewrite bind_cons, map_app.
  change (map embedding_note_id (ne :: nes))
    with ([embedding_note_id ne] ++ map embedding_note_id nes).
  f_equal; [| exact IH].
  destruct (one_note_with_id (embedding_note_id ne) all_notes Hnodup Hne)
    as (n & -> & Hid).
  rewrite bind_cons. cbn. rewrite Hid. reflexivity.
Qed.

(** On sound tables every vector joins exactly one note. *)
Lemma join_rows_ids (t : Tables) :
  index_sound t ->
  map (fun row : Joined => note_id (fst row)) (join_rows t)
  = map embedding_note_id (note_embeddings t).
Proof. intros (Hnodup & Hlive). apply joined_ids; assumption. Qed.

(** X17: after any run of note requests on a new database no two notes share
    an id, no two vectors belong to the same note, every vector belongs to a
    note of the table, and the join of the similarity query has exactly one
    row per vector. *)
Theorem reached_tables_have_sound_keys (reqs : list NoteRequest) :
  let t := tables (snd (handle_all reqs initial_world)) in
  NoDup (map note_id (notes t))
  /\ NoDup (map embedding_note_id (note_embeddings t))
  /\ Forall (fun ne => exists n, n ∈ notes t /\ note_id n = embedding_note_id ne)
       (note_embeddings t)
  /\ length (join_rows t) = length (note_embeddings t).
Proof.
  intros t. destruct (reached_keeps_keys reqs) as [(Hone & _ & _) Hsound].
  fold t in Hone, Hsound. pose proof Hsound as (Hnodup & Hlive).
  split; [exact Hnodup |]. split; [apply one_vector_each_NoDup; exact Hone |].
  split.
  - eapply Forall_impl; [exact Hlive |]. intros ne Hin.
    apply list_elem_of_fmap in Hin as (n & Hid & Hin). exists n. auto.
  - rewrite <- (length_map (fun row : Joined => note_id (fst row)) (join_rows t)).
    rewrite join_rows_ids by exact Hsound. apply length_map.
Qed.

(** X18: on the tables reached by any run of note requests a search never
    returns the same note twice. *)
Theorem search_returns_each_note_once
    (reqs : list NoteRequest) (query : list score) (top_k : Z)
    (rows : list RelevantNote) :
  execute_query query top_k (tables (snd (handle_all reqs initial_world))) = Ok rows ->
  NoDup (map rn_id rows).
Proof.
  destruct (reached_keeps_keys reqs) as [(Hone & _ & _) Hsound].
  set (t := tables (snd (handle_all reqs initial_world))) in *.
  unfold execute_query. destruct (top_k <? 0); [discriminate |].
  intros [= <-].
  rewrite <- list_fmap_compose.
  change (rn_id ∘ project query) with (fun row : Joined => note_id (fst row)).
  rewrite fmap_take.
  eapply sublist_NoDup; [| apply sublist_take].
  rewrite (order_by_distance_permutation query (join_rows t)).
  rewrite join_rows_ids by exact Hsound.
  apply one_vector_each_NoDup. exact Hone.
Qed.

(** *** The note handlers, request by request *)

Lemma world_eta (w : World) :
  {| conversation_manager := conversation_manager w; tables := tables w;
     trace := trace w |} = w.
Proof. destruct w. reflexivity. Qed.

Lemma get_note_run (i : Z) (w : World) :
  get_note i w =
  (match find_note i (tables w) with
   | Some n => Ok n
   | None => Raise "404: Note not found"
   end, w).
Proof.
  unfold get_note, with_session. run_world. cbn [db_open pending].
  destruct (find_note i (tables w)); cbn [db_close committed db_open];
    rewrite world_eta; reflexivity.
Qed.

Lemma delete_note_exact (i : Z) (w : World) :
  delete_note i w =
  match find_note i (tables w) with
  | Some n =>
      (Ok tt,
       {| conversation_manager := conversation_manager w;
          tables := delete_embeddings_of i (delete_note_row (note_id n) (tables w));
          trace := trace w |})
  | None => (Raise "404: Note not found", w)
  end.
Proof.
  unfold delete_note, with_session. run_world. cbn [db_open pending].
  destruct (find_note i (tables w)); cbn [db_close committed db_open];
    [reflexivity | rewrite world_eta; reflexivity].
Qed.

(** The whole of [PUT /api/notes/{note_id}] on a note that exists. *)
Lemma update_note_handler_exact (i : Z) (new_title new_content : option string)
    (w : World) (n : Note) :
  find_note i (tables w) = Some n ->
  let title' := default (title n) new_title in
  let content' := default (note_content n) new_content in
  let dirty :=
    negb (bool_decide (title' = title n /\ content' = note_content n)) in
  let asked := (length (trace w) + (if dirty then 1 else 0))%nat in
  let n' :=
    {| note_id := note_id n; title := title'; note_content := content';
       created_at := created_at n;
       updated_at := if dirty then utcnow_isoformat (length (trace w))
                     else updated_at n |} in
  fst (update_note_handler i new_title new_content w) = Ok n'
  /\ conversation_manager (snd (update_note_handler i new_title new_content w))
     = conversation_manager w
  /\ tables (snd (update_note_handler i new_title new_content w))
     = match embed_query asked (title' +:+ " " +:+ content') with
       | Ok (x :: v) =>
           insert_embedding (note_id n) (x :: v) (utcnow_isoformat (S asked))
             (delete_embeddings_of (note_id n) (replace_note n' (tables w)))
       | _ => replace_note n' (tables w)
       end.
Proof.
  intros Hfind title' content' dirty asked n'.
  unfold update_note_handler, with_session, update_note, call_utcnow. run_world.
  cbn [db_open pending]. rewrite Hfind.
  fold title' content'. fold dirty. unfold asked, n'.
  destruct dirty; cbv beta iota zeta; rewrite add_note_run;
    cbn [title note_content note_id trace conversation_manager];
    rewrite ?length_snoc, ?Nat.add_1_r, ?Nat.add_0_r;
    match goal with
    | |- context [embed_query ?k ?text] =>
        destruct (embed_query k text) as [[| x v] | exn]
    end; repeat split.
Qed.

Lemma update_note_handler_missing (i : Z) (new_title new_content : option string)
    (w : World) :
  find_note i (tables w) = None ->
  update_note_handler i new_title new_content w
  = (Raise "404: Note not found", w).
Proof.
  intros Hfind. unfold update_note_handler, with_session. run_world.
  cbn [db_open pending]. rewrite Hfind. cbn [db_close committed db_open].
  rewrite world_eta. reflexivity.
Qed.

Lemma create_note_memory (new_title new_content : string) (w : World) :
  conversation_manager (snd (create_note new_title new_content w))
  = conversation_manager w.
Proof.
  unfold create_note, with_session, call_utcnow. run_world.
  rewrite add_note_run. cbn [title note_content].
  match goal with
  | |- context [embed_query ?k ?text] =>
      destruct (embed_query k text) as [[| x v] | exn]
  end; reflexivity.
Qed.

Lemma find_note_replaced (n n' : Note) (i : Z) (t : Tables) :
  find_note i t = Some n -> note_id n' = i ->
  find_note i (replace_note n' t) = Some n'.
Proof.
  unfold find_note, replace_note. cbn [notes]. intros Hfind Hid.
  induction (notes t) as [| m l IH]; [discriminate |].
  cbn [map]. rewrite filter_cons in Hfind. rewrite filter_cons.
  destruct (decide (note_id m = i)) as [Hm | Hm].
  - rewrite bool_decide_eq_true_2 by congruence.
    rewrite decide_True by exact Hid. reflexivity.
  - rewrite bool_decide_eq_false_2 by congruence.
    rewrite decide_False by exact Hm. apply IH. exact Hfind.
Qed.

Lemma find_note_new (n : Note) (t : Tables) :
  note_id n ∉ map note_id (notes t) ->
  find_note (note_id n) (insert_note n t) = Some n.
Proof.
  intros Hfresh. unfold find_note, insert_note. cbn [notes].
  rewrite filter_app, no_note_with_id by exact Hfresh.
  rewrite filter_cons, decide_True by reflexivity. reflexivity.
Qed.

Lemma find_note_deleted (i : Z) (l : list Note) :
  filter (fun m => note_id m = i) (filter (fun m => note_id m <> i) l) = [].
Proof.
  induction l as [| m l IH]; [reflexivity |].
  rewrite filter_cons. destruct (decide (note_id m <> i)) as [Hne | _]; [| exact IH].
  rewrite filter_cons, decide_False by exact Hne. exact IH.
Qed.

(** X19: a request for a note id that no note has ([GET], [PUT] or [DELETE]
    of [/api/notes/{note_id}]) answers 404 and changes nothing: tables, memory
    and the record of outside calls stay as they were, so nothing is embedded. *)
Theorem missing_note_is_404_and_nothing_changes
    (i : Z) (new_title new_content : option string) (w : World) :
  find_note i (tables w) = None ->
  get_note i w = (Raise "404: Note not found", w)
  /\ update_note_handler i new_title new_content w
     = (Raise "404: Note not found", w)
  /\ delete_note i w = (Raise "404: Note not found", w).
Proof.
  intros Hfind. rewrite get_note_run, delete_note_exact, Hfind.
  repeat split. apply update_note_handler_missing. exact Hfind.
Qed.


(** X21: [DELETE /api/notes/{note_id}] of an existing note answers OK and
    leaves no note and no vector with that id (a later [GET] is a 404); the
    other notes, the vectors of every other id and conversation memory are as
    before, and nothing outside is called. *)
Theorem deleted_note_is_gone (i : Z) (w : World) (n : Note) :
  find_note i (tables w) = Some n ->
  let w' := snd (delete_note i w) in
  fst (delete_note i w) = Ok tt
  /\ notes (tables w') = filter (fun m => note_id m <> i) (notes (tables w))
  /\ fst (get_note i w') = Raise "404: Note not found"
  /\ @vectors_of R i (tables w') = []
  /\ (forall j, j <> i -> vectors_of j (tables w') = vectors_of j (tables w))
  /\ conversation_manager w' = conversation_manager w
  /\ trace w' = trace w.
Proof.
  intros Hfind w'. unfold w'. rewrite delete_note_exact, Hfind.
  cbn [fst snd tables conversation_manager trace].
  destruct (find_note_found i (tables w) n Hfind) as [_ Hid]. rewrite Hid.
  split; [reflexivity |]. split; [reflexivity |]. split.
  { rewrite get_note_run. cbn [fst tables]. unfold find_note.
    cbn [delete_embeddings_of delete_note_row notes].
    rewrite find_note_deleted. reflexivity. }
  split.
  { rewrite vectors_of_delete_embeddings, decide_True by reflexivity. reflexivity. }
  split; [| split; reflexivity].
  intros j Hne. rewrite vectors_of_delete_embeddings, decide_False by exact Hne.
  change (vectors_of j (delete_note_row i (tables w)))
    with (vectors_of j (delete_embeddings_of i (tables w))).
  rewrite vectors_of_delete_embeddings, decide_False by exact Hne. reflexivity.
Qed.

Lemma vectors_of_replace_note (j : Z) (n : Note) (t : Tables) :
  vectors_of j (replace_note n t) = vectors_of j t.
Proof. reflexivity. Qed.




(** X25: no run of note requests changes conversation memory. *)
Theorem note_requests_leave_memory (reqs : list NoteRequest) (w : World) :
  conversation_manager (snd (handle_all reqs w)) = conversation_manager w.
Proof.
  revert w. induction reqs as [| req reqs IH]; intros w; [reflexivity |].
  simpl. unfold mbind, M_bind.
  assert (Hstep : conversation_manager (snd (handle req w)) = conversation_manager w).
  { destruct req as [t c | i t c | i]; simpl; rewrite then_unit_world.
    - apply create_note_memory.
    - destruct (find_note i (tables w)) as [n |] eqn:Hfind.
      + apply (update_note_handler_exact i t c w n Hfind).
      + rewrite update_note_handler_missing by exact Hfind. reflexivity.
    - rewrite delete_note_exact. destruct (find_note i (tables w)); reflexivity. }
  destruct (handle req w) as [[] w1]. cbn [snd] in Hstep.
  rewrite IH. exact Hstep.
Qed.

End IndexMore.

(** ** The further properties on the sample runtimes *)

Lemma record_all_other_user_witness :
  record_all (numbered_turns 0 2) ∅ !! "v" = (∅ : ConversationManager) !! "v".
Proof.
  apply (record_all_leaves_other_users (numbered_turns 0 2) "v" ∅).
  repeat constructor; discriminate.
Defined.

Lemma history_latest_witness :
  0 < 2
  /\ length (fst (get_conversation_history "u" "default" 2
                    (record_all (numbered_turns 0 3) ∅))) = 2%nat.
Proof.
  split; [lia |].
  refine (eq_trans
    (proj1 (proj2 (history_returns_latest_of_conversation "u" "default" 2
                     (record_all (numbered_turns 0 3) ∅) _))) _);
    [lia | vm_compute; reflexivity].
Defined.

Lemma history_negative_limit_witness :
  -1 < 0
  /\ length (fst (get_conversation_history "u" "default" (-1)
                    (record_all (numbered_turns 0 3) ∅))) = 2%nat.
Proof.
  split; [lia |].
  rewrite (history_with_negative_limit_drops_oldest "u" "default" (-1)
             (record_all (numbered_turns 0 3) ∅)) by lia.
  vm_compute. reflexivity.
Defined.

Lemma next_prompt_witness :
  length (@build_messages demo_runtime "And of Germany?" []
            (recent_window "u"
               (conversation_manager
                  (snd (@ask_question demo_runtime sample_question "u"
                          (sample_world demo_runtime)))))) = 6%nat.
Proof.
  erewrite (@next_prompt_carries_last_exchange demo_runtime
              sample_question "u" (sample_world demo_runtime) _ _ "Paris.").
  - reflexivity.
  - vm_compute. reflexivity.
  - reflexivity.
  - discriminate.
Defined.

Lemma search_rows_witness :
  exists rows,
    @execute_query demo_runtime [(4 # 5)%Q; (3 # 5)%Q] 3
      (tables (sample_world demo_runtime)) = Ok rows
    /\ Forall (fun r => @vectors_of demo_runtime (rn_id r)
                          (tables (sample_world demo_runtime)) <> []) rows.
Proof.
  eexists. split; [vm_compute; reflexivity |].
  eapply Forall_impl.
  - eapply (@search_rows_are_notes_with_vectors demo_runtime
              [(4 # 5)%Q; (3 # 5)%Q] 3 (tables (sample_world demo_runtime))).
    vm_compute. reflexivity.
  - intros r (n & ne & _ & _ & _ & _ & _ & _ & _ & Hvec). exact Hvec.
Defined.

Lemma search_once_witness :
  exists rows,
    @execute_query demo_runtime [(4 # 5)%Q; (3 # 5)%Q] 3
      (tables (snd (@handle_all demo_runtime sample_requests initial_world)))
    = Ok rows
    /\ NoDup (map rn_id rows).
Proof.
  eexists. split; [vm_compute; reflexivity |].
  eapply (@search_returns_each_note_once demo_runtime sample_requests
            [(4 # 5)%Q; (3 # 5)%Q] 3).
  vm_compute. reflexivity.
Defined.

Lemma missing_note_witness :
  @find_note demo_runtime 7 (tables initial_world) = None
  /\ @get_note demo_runtime 7 initial_world
     = (Raise "404: Note not found", initial_world).
Proof.
  split; [reflexivity |].
  apply (@missing_note_is_404_and_nothing_changes demo_runtime 7 None None
           initial_world).
  reflexivity.
Defined.

Lemma deleted_note_witness :
  fst (@delete_note demo_runtime 2 (sample_world demo_runtime)) = Ok tt.
Proof.
  eapply (@deleted_note_is_gone demo_runtime 2 (sample_world demo_runtime)).
  vm_compute. reflexivity.
Defined.



